(** * Certificate pinning authorizer: a shallow embedding of
      [lambda_ssl_pinning.py] and the properties of its pinning pipeline.

    Python values are modelled as the code has them: a [str] is a sequence
    of Unicode code points, an [int] is an unbounded integer, [None] and
    exceptions are explicit.  Calls that leave the process (Secrets Manager,
    sockets, TLS) answer through a [World] of oracles and are recorded in a
    trace, so that the absence of a network call is a statement about the
    trace. *)

From Stdlib Require Import String Ascii ZArith NArith Bool Lia List Permutation.
Import ListNotations.

Set Implicit Arguments.

(** ** Python strings *)

Module PyStr.

(** A Python [str]: a sequence of code points. *)
Definition pystr := list N.

(** A literal of the source, written as a Rocq string of ASCII characters. *)
Definition lit (s : string) : pystr := map N_of_ascii (list_ascii_of_string s).

Fixpoint eqb (a b : pystr) : bool :=
  match a, b with
  | [], [] => true
  | x :: a', y :: b' => N.eqb x y && eqb a' b'
  | _, _ => false
  end.

(** [str.isspace] on one code point, the table [str.split()] uses when it
    is called without a separator: the characters whose bidirectional
    class is WS, B or S, or whose category is Zs. *)
Definition isspace (c : N) : bool :=
  ((9 <=? c) && (c <=? 13)          (* \t \n \v \f \r *)
   || (28 <=? c) && (c <=? 32)      (* FS GS RS US and the space *)
   || (c =? 133) || (c =? 160)      (* NEL, no-break space *)
   || (c =? 5760)                   (* U+1680 *)
   || (8192 <=? c) && (c <=? 8202)  (* U+2000 .. U+200A *)
   || (c =? 8232) || (c =? 8233)    (* U+2028, U+2029 *)
   || (c =? 8239) || (c =? 8287)    (* U+202F, U+205F *)
   || (c =? 12288))%N.              (* U+3000 *)

(** [s.split()]: the maximal runs of non-whitespace characters of [s], in
    order; [cur] is the run being read.  Leading, trailing and repeated
    whitespace produce no empty piece. *)
Fixpoint split_from (cur s : pystr) : list pystr :=
  match s with
  | [] => match cur with [] => [] | _ => [cur] end
  | c :: s' =>
      if isspace c
      then match cur with
           | [] => split_from [] s'
           | _ => cur :: split_from [] s'
           end
      else split_from (cur ++ [c]) s'
  end.

Definition split (s : pystr) : list pystr := split_from [] s.

(** [sep.join(parts)]. *)
Fixpoint join (sep : pystr) (parts : list pystr) : pystr :=
  match parts with
  | [] => []
  | [p] => p
  | p :: rest => p ++ sep ++ join sep rest
  end.

(** The normalization both [ServerConfig.__post_init__] and
    [extract_certificate] apply: the pieces of [s.split()] joined by the
    empty string. *)
Definition strip_all_whitespace (s : pystr) : pystr := join [] (split s).

(** What the normalization is meant to be: the characters of [s] that are
    not whitespace, in their order. *)
Definition non_whitespace (s : pystr) : pystr :=
  filter (fun c => negb (isspace c)) s.

End PyStr.

Import PyStr.

(** ** Python values, exceptions and results *)

(** The values that reach the handler: the event and the secret are parsed
    JSON, so [None], booleans, numbers, strings, lists and dictionaries
    with string keys.  A dictionary keeps its items in insertion order and
    is read by its first item with the key. *)
#[warnings="-register-all"] Inductive pyval : Type :=
| PNone
| PBool (b : bool)
| PInt (z : Z)
| PFloat (mantissa exponent : Z)
| PStr (s : pystr)
| PList (items : list pyval)
| PDict (items : list (pystr * pyval)).

(** The exception classes that can be raised here.  Every one of them
    derives from [Exception], so an [except Exception] clause catches each. *)
Inductive py_exception : Type :=
| KeyError
| TypeError
| AttributeError
| IndexError
| ValueError
| JSONDecodeError
| ClientError
| gaierror
| ConnectionRefusedError
| TimeoutError
| SSLError
| SSLCertVerificationError
| OSError.

(** The outcome of evaluating an expression: a value or a raised exception. *)
Inductive result (A : Type) : Type :=
| Ok (a : A)
| Raise (e : py_exception).

Arguments Ok {A} a.
Arguments Raise {A} e.

Definition rbind {A B} (r : result A) (k : A -> result B) : result B :=
  match r with
  | Ok a => k a
  | Raise e => Raise e
  end.

Declare Scope result_scope.
Delimit Scope result_scope with result.
Notation "x <~ r ;; k" := (rbind r (fun x => k))
  (at level 61, r at next level, right associativity) : result_scope.

Fixpoint dict_lookup (key : pystr) (items : list (pystr * pyval)) : option pyval :=
  match items with
  | [] => None
  | (k, v) :: rest => if PyStr.eqb key k then Some v else dict_lookup key rest
  end.

(** [obj[key]] for a string key: a dictionary answers or raises [KeyError];
    a string or a list wants integer indices, and the other values are not
    subscriptable: [TypeError]. *)
Definition getitem (obj : pyval) (key : pystr) : result pyval :=
  match obj with
  | PDict items =>
      match dict_lookup key items with
      | Some v => Ok v
      | None => Raise KeyError
      end
  | _ => Raise TypeError
  end.

(** [l[index]] on a list: a negative index counts from the end, and an
    index outside [-len(l) .. len(l) - 1] raises [IndexError]. *)
Definition list_getitem {A} (l : list A) (index : Z) : result A :=
  let n := Z.of_nat (length l) in
  let i := if (index <? 0)%Z then (index + n)%Z else index in
  if ((0 <=? i) && (i <? n))%Z
  then match nth_error l (Z.to_nat i) with
       | Some x => Ok x
       | None => Raise IndexError
       end
  else Raise IndexError.

(** The list comprehension [[f(x) for x in xs]]: left to right, the first
    exception ends it. *)
Fixpoint comprehension {A B} (f : A -> result B) (xs : list A) : result (list B) :=
  match xs with
  | [] => Ok []
  | x :: rest =>
      (y <~ f x ;;
       ys <~ comprehension f rest ;;
       Ok (y :: ys))%result
  end.

(** ** [ServerConfig] *)

(** A constructed [ServerConfig].  The dataclass checks no types, so [URL]
    and [Port] hold whatever the secret held; the three certificate fields
    are what [__post_init__] assigned, always a [str]. *)
Record ServerConfig : Type := {
  URL : pyval;
  Port : pyval;
  ServerCert : pystr;
  IntermediateCert : pystr;
  RootCert : pystr
}.

(** [value.split()]: only a [str] has the method among the values of a
    parsed secret. *)
Definition split_method (value : pyval) : result (list pystr) :=
  match value with
  | PStr s => Ok (PyStr.split s)
  | _ => Raise AttributeError
  end.

(** The pieces of [value.split()] joined by the empty string, as
    [__post_init__] writes it. *)
Definition post_init_field (value : pyval) : result pystr :=
  (parts <~ split_method value ;; Ok (PyStr.join [] parts))%result.

(** [ServerConfig(URL, Port, ServerCert, IntermediateCert, RootCert)]: the
    generated [__init__] stores the five arguments, then [__post_init__]
    rewrites the three certificate fields in this order. *)
Definition ServerConfig_init
    (url port server_cert intermediate_cert root_cert : pyval)
  : result ServerConfig :=
  (sc <~ post_init_field server_cert ;;
   ic <~ post_init_field intermediate_cert ;;
   rc <~ post_init_field root_cert ;;
   Ok {| URL := url; Port := port; ServerCert := sc;
         IntermediateCert := ic; RootCert := rc |})%result.

Definition field_names : list pystr :=
  [lit "URL"; lit "Port"; lit "ServerCert"; lit "IntermediateCert"; lit "RootCert"].

(** [ServerConfig] called with [secrets_dict] unpacked into keyword
    arguments: the argument must be a mapping, every key must name a field
    and every field must be given (no field has a default); each violation
    is a [TypeError]. *)
Definition ServerConfig_kwargs (secrets_dict : pyval) : result ServerConfig :=
  match secrets_dict with
  | PDict items =>
      if forallb (fun kv => existsb (PyStr.eqb (fst kv)) field_names) items
      then match dict_lookup (lit "URL") items,
                 dict_lookup (lit "Port") items,
                 dict_lookup (lit "ServerCert") items,
                 dict_lookup (lit "IntermediateCert") items,
                 dict_lookup (lit "RootCert") items with
           | Some u, Some p, Some s, Some i, Some r => ServerConfig_init u p s i r
           | _, _, _, _, _ => Raise TypeError
           end
      else Raise TypeError
  | _ => Raise TypeError
  end.

(** ** [extract_certificate] *)

Definition extract_certificate (cert_chain : list pystr) (index : Z)
  : result (option pystr) :=
  if (Z.of_nat (length cert_chain) >? index)%Z
  then (cert <~ list_getitem cert_chain index ;;
        Ok (Some (strip_all_whitespace cert)))%result
  else Ok None.

(** ** [generate_policy] *)

Definition generate_policy (principal_id effect resource : pyval) : pyval :=
  PDict
    [(lit "principalId", principal_id);
     (lit "policyDocument",
      PDict
        [(lit "Version", PStr (lit "2012-10-17"));
         (lit "Statement",
          PList
            [PDict [(lit "Action", PStr (lit "execute-api:Invoke"));
                    (lit "Effect", effect);
                    (lit "Resource", resource)]])])].

(** ** The comparison of [lambda_handler] *)

(** The two effects the handler passes to [generate_policy]. *)
Inductive Decision : Type := Allow | Deny.

Definition effect_of (d : Decision) : pyval :=
  match d with
  | Allow => PStr (lit "Allow")
  | Deny => PStr (lit "Deny")
  end.

(** [pinned == retrieved] where [retrieved] is a [str] or [None]: a string
    never equals [None]. *)
Definition str_eq (pinned : pystr) (retrieved : option pystr) : bool :=
  match retrieved with
  | Some s => PyStr.eqb pinned s
  | None => false
  end.

(** The [cert_results] dictionary of the handler, in insertion order. *)
Definition cert_results (server_config : ServerConfig)
    (server_cert intermediate_cert root_cert : option pystr)
  : list (pystr * bool) :=
  [(lit "Server Certificate", str_eq (ServerCert server_config) server_cert);
   (lit "Intermediate Certificate",
    str_eq (IntermediateCert server_config) intermediate_cert);
   (lit "Root Certificate", str_eq (RootCert server_config) root_cert)].

(** What [lambda_handler] does with the retrieved chain, from the test
    [if not retrieved_cert_chain] to the end: the effect of the policy it
    returns. *)
Definition decide (server_config : ServerConfig) (retrieved_cert_chain : list pystr)
  : result Decision :=
  match retrieved_cert_chain with
  | [] => Ok Deny
  | _ :: _ =>
      (server_cert <~ extract_certificate retrieved_cert_chain 0 ;;
       intermediate_cert <~ extract_certificate retrieved_cert_chain 1 ;;
       root_cert <~ extract_certificate retrieved_cert_chain 2 ;;
       if forallb snd
            (cert_results server_config server_cert intermediate_cert root_cert)
       then Ok Allow
       else Ok Deny)%result
  end.

(** ** The world outside the process *)

(** A socket or TLS socket, named by a handle. *)
Definition handle := N.

(** A DER certificate: its bytes. *)
Definition der := list N.

(** What the libraries answer.  The handler is run once against a fixed
    world: each entry gives the outcome of the call it is named after. *)
Record World : Type := {
  os_getenv : pystr -> option pystr;
  get_secret_value : pystr -> result pyval;
  json_loads : pyval -> result pyval;
  create_default_context : result unit;
  create_connection : pyval -> pyval -> result handle;
  wrap_socket : handle -> pyval -> result handle;
  get_verified_chain : handle -> result (list der);
  DER_cert_to_PEM_cert : der -> result pystr;
  close : handle -> result unit
}.

(** The calls that leave the process, as they are recorded. *)
Inductive io_call : Type :=
| Call_get_secret_value (secret_id : pystr)
| Call_create_connection (hostname port : pyval)
| Call_wrap_socket (sock : handle) (server_hostname : pyval)
| Call_close (h : handle).

Definition trace := list io_call.


(** A statement of the handler: it extends the trace and returns a value
    or raises. *)
Definition M (A : Type) : Type := trace -> result A * trace.

Definition ret {A} (a : A) : M A := fun t => (Ok a, t).

Definition bind {A B} (m : M A) (k : A -> M B) : M B :=
  fun t =>
    match m t with
    | (Ok a, t') => k a t'
    | (Raise e, t') => (Raise e, t')
    end.

Definition lift {A} (r : result A) : M A := fun t => (r, t).

(** An outside call: recorded, then answered. *)
Definition call {A} (c : io_call) (answer : result A) : M A :=
  fun t => (answer, t ++ [c]).

(** [try: body  except Exception as e: ...]: the caller receives either
    the value of the body or the exception it raised, and goes on. *)
Definition try_except {A} (body : M A) : M (A + py_exception) :=
  fun t =>
    match body t with
    | (Ok a, t') => (Ok (inl a), t')
    | (Raise e, t') => (Ok (inr e), t')
    end.

(** [with acquire as r: body]: [__exit__] runs however the body ends; the
    sockets' [__exit__] closes and does not swallow the exception of the
    body, and an exception of the close replaces the outcome. *)
Definition with_as {R A} (acquire : M R) (exit : R -> M unit) (body : R -> M A)
  : M A :=
  bind acquire (fun r t =>
    match body r t with
    | (outcome, t1) =>
        match exit r t1 with
        | (Ok _, t2) => (outcome, t2)
        | (Raise e, t2) => (Raise e, t2)
        end
    end).

Declare Scope io_scope.
Delimit Scope io_scope with io.
Notation "x <- m ;; k" := (bind m (fun x => k))
  (at level 61, m at next level, right associativity) : io_scope.

(** ** [get_certificate_chain] *)

(** The body of the [try]: context, connection, handshake, verified chain,
    conversion of each certificate. *)
Definition retrieve_chain (w : World) (hostname port : pyval) : M (list pystr) :=
  (_ <- lift (create_default_context w) ;;
   with_as
     (call (Call_create_connection hostname port)
           (create_connection w hostname port))
     (fun sock => call (Call_close sock) (close w sock))
     (fun sock =>
        with_as
          (call (Call_wrap_socket sock hostname) (wrap_socket w sock hostname))
          (fun ssock => call (Call_close ssock) (close w ssock))
          (fun ssock =>
             cert_chain <- lift (get_verified_chain w ssock) ;;
             pem_certificates <-
               lift (comprehension (DER_cert_to_PEM_cert w) cert_chain) ;;
             ret pem_certificates)))%io.

Definition get_certificate_chain (w : World) (hostname port : pyval)
  : M (list pystr) :=
  (r <- try_except (retrieve_chain w hostname port) ;;
   match r with
   | inl pem_certificates => ret pem_certificates
   | inr _ => ret []
   end)%io.

(** ** [lambda_handler]

    The [logger] calls are left out: they return nothing the handler reads
    and change no value it uses. *)

(** The body of the handler's [try]: the secret is fetched, its
    [SecretString] parsed and the [ServerConfig] built from it. *)
Definition load_server_config (w : World) (secret_name : pystr) : M ServerConfig :=
  (response <- call (Call_get_secret_value secret_name)
                    (get_secret_value w secret_name) ;;
   secret_string <- lift (getitem response (lit "SecretString")) ;;
   secrets_dict <- lift (json_loads w secret_string) ;;
   lift (ServerConfig_kwargs secrets_dict))%io.

Definition lambda_handler (w : World) (event : pyval) : M pyval :=
  (request_context <- lift (getitem event (lit "requestContext")) ;;
   identity <- lift (getitem request_context (lit "identity")) ;;
   requester_ip <- lift (getitem identity (lit "sourceIp")) ;;
   let secret_name := os_getenv w (lit "secret_name") in
   match secret_name with
   | None | Some [] =>                      (* [not secret_name] *)
       method_arn <- lift (getitem event (lit "methodArn")) ;;
       ret (generate_policy requester_ip (effect_of Deny) method_arn)
   | Some ((_ :: _) as name) =>
       loaded <- try_except (load_server_config w name) ;;
       match loaded with
       | inr _ =>
           method_arn <- lift (getitem event (lit "methodArn")) ;;
           ret (generate_policy (PStr (lit "user")) (effect_of Deny) method_arn)
       | inl server_config =>
           retrieved_cert_chain <-
             get_certificate_chain w (URL server_config) (Port server_config) ;;
           decision <- lift (decide server_config retrieved_cert_chain) ;;
           method_arn <- lift (getitem event (lit "methodArn")) ;;
           ret (generate_policy requester_ip (effect_of decision) method_arn)
       end
   end)%io.

(** ** Vocabulary of the statements *)

(** The retrieved chain has an entry at [position] whose normalization is
    exactly [pinned]. *)
Definition matches_at (pinned : pystr) (chain : list pystr) (position : nat) : Prop :=
  exists entry,
    nth_error chain position = Some entry /\ strip_all_whitespace entry = pinned.

(** An event as API Gateway sends it to an authorizer: it carries
    [requestContext.identity.sourceIp] and [methodArn]. *)
Definition gateway_event (event source_ip method_arn : pyval) : Prop :=
  exists request_context identity,
    getitem event (lit "requestContext") = Ok request_context /\
    getitem request_context (lit "identity") = Ok identity /\
    getitem identity (lit "sourceIp") = Ok source_ip /\
    getitem event (lit "methodArn") = Ok method_arn.

(** The retrieved chain has an entry at [position] which, once its
    whitespace characters are deleted, is exactly [pinned]. *)
Definition equals_pin_at (pinned : pystr) (chain : list pystr) (position : nat) : Prop :=
  exists entry,
    nth_error chain position = Some entry /\ non_whitespace entry = pinned.

(** What API Gateway reads in a policy document, subscript by subscript:
    the principal under [principalId] and, under [policyDocument], the
    version and one statement with the action, the effect and the
    resource. *)
Definition reads_as_policy
    (policy principal_id : pyval) (effect : pystr) (resource : pyval) : Prop :=
  getitem policy (lit "principalId") = Ok principal_id /\
  exists document statement,
    getitem policy (lit "policyDocument") = Ok document /\
    getitem document (lit "Version") = Ok (PStr (lit "2012-10-17")) /\
    getitem document (lit "Statement") = Ok (PList [statement]) /\
    getitem statement (lit "Action") = Ok (PStr (lit "execute-api:Invoke")) /\
    getitem statement (lit "Effect") = Ok (PStr effect) /\
    getitem statement (lit "Resource") = Ok resource.

(** A well-formed policy document: it reads as a policy whose effect is
    the text Allow or the text Deny. *)
Definition well_formed_policy (policy : pyval) : Prop :=
  exists principal_id effect resource,
    (effect = lit "Allow" \/ effect = lit "Deny") /\
    reads_as_policy policy principal_id effect resource.

(** The text of an effect. *)
Definition effect_text (d : Decision) : pystr :=
  match d with
  | Allow => lit "Allow"
  | Deny => lit "Deny"
  end.

(** The first statement of the handler reads the address of the caller:
    the [sourceIp] of the [identity] of the [requestContext] of the event. *)
Definition source_ip_of (event : pyval) : result pyval :=
  (request_context <~ getitem event (lit "requestContext") ;;
   identity <~ getitem request_context (lit "identity") ;;
   getitem identity (lit "sourceIp"))%result.

(** A call that opens a TCP connection. *)
Definition is_connection_call (c : io_call) : bool :=
  match c with
  | Call_create_connection _ _ => true
  | _ => false
  end.

(** A call made while the chain of [hostname] is retrieved: the handshake
    names this host, and sockets are closed. *)
Definition follows_connection (hostname : pyval) (c : io_call) : Prop :=
  match c with
  | Call_wrap_socket _ server_hostname => server_hostname = hostname
  | Call_close _ => True
  | _ => False
  end.

(** A printable ASCII character other than the space, as the lines of a
    PEM text are made of. *)
Definition printable (c : N) : bool := ((33 <=? c) && (c <=? 126))%N.

(** ** Concrete inputs *)

Module Sample.

Definition secret (url port server_cert intermediate_cert root_cert : pyval) : pyval :=
  PDict [(lit "URL", url); (lit "Port", port); (lit "ServerCert", server_cert);
         (lit "IntermediateCert", intermediate_cert); (lit "RootCert", root_cert)].

(** An authorizer event from 203.0.113.7. *)
Definition event : pyval :=
  PDict
    [(lit "type", PStr (lit "REQUEST"));
     (lit "methodArn", PStr (lit "arn:aws:execute-api:eu-west-1:1:api/prod/GET/"));
     (lit "requestContext",
      PDict [(lit "identity", PDict [(lit "sourceIp", PStr (lit "203.0.113.7"))])])].

Definition source_ip : pyval := PStr (lit "203.0.113.7").
Definition method_arn : pyval :=
  PStr (lit "arn:aws:execute-api:eu-west-1:1:api/prod/GET/").

(** A world whose secret parses to [parsed] and whose host presents the
    three certificates AAA, BBB, CCC (as DER bytes 1, 2, 3), converted to
    texts with line breaks and spaces. *)
Definition world (parsed : pyval) : World :=
  {| os_getenv := fun name =>
       if PyStr.eqb name (lit "secret_name") then Some (lit "pins") else None;
     get_secret_value := fun _ =>
       Ok (PDict [(lit "SecretString", PStr (lit "{...}"))]);
     json_loads := fun _ => Ok parsed;
     create_default_context := Ok tt;
     create_connection := fun _ _ => Ok 3%N;
     wrap_socket := fun _ _ => Ok 4%N;
     get_verified_chain := fun _ => Ok [[1%N]; [2%N]; [3%N]];
     DER_cert_to_PEM_cert := fun d =>
       match d with
       | [1%N] => Ok (lit " A A A" ++ [10%N])
       | [2%N] => Ok (lit "B B B")
       | [3%N] => Ok (lit "CCC")
       | _ => Raise ValueError
       end;
     close := fun _ => Ok tt |}.

Definition pinned : pyval :=
  secret (PStr (lit "example.com")) (PInt 443)
         (PStr (lit "AAA")) (PStr (lit "BBB")) (PStr (lit "CCC")).



(** A secret without its [RootCert]. *)
Definition missing_root : pyval :=
  PDict [(lit "URL", PStr (lit "example.com")); (lit "Port", PInt 443);
         (lit "ServerCert", PStr (lit "AAA"));
         (lit "IntermediateCert", PStr (lit "BBB"))].

Definition config : ServerConfig :=
  {| URL := PStr (lit "example.com"); Port := PInt 443;
     ServerCert := lit "AAA"; IntermediateCert := lit "BBB";
     RootCert := lit "CCC" |}.

End Sample.

(** * Properties *)

(** ** Strings *)

Lemma pystr_eqb_spec (a b : pystr) : reflect (a = b) (PyStr.eqb a b).
Proof.
  revert b; induction a as [|x a IH]; intros [|y b]; simpl;
    try (constructor; congruence).
  destruct (N.eqb_spec x y) as [->|Hne]; simpl.
  - destruct (IH b) as [->|Hne]; constructor; congruence.
  - constructor; congruence.
Qed.

Lemma pystr_eqb_eq (a b : pystr) : PyStr.eqb a b = true <-> a = b.
Proof. destruct (pystr_eqb_spec a b); split; congruence. Qed.

Lemma pystr_eqb_refl (a : pystr) : PyStr.eqb a a = true.
Proof. apply pystr_eqb_eq; reflexivity. Qed.

Lemma join_empty_concat (parts : list pystr) : join [] parts = concat parts.
Proof.
  induction parts as [|p [|q rest] IH]; simpl in *.
  - reflexivity.
  - now rewrite app_nil_r.
  - now rewrite IH.
Qed.

Lemma concat_split_from (s cur : pystr) :
  concat (split_from cur s) = cur ++ non_whitespace s.
Proof.
  revert cur; induction s as [|c s IH]; intros cur; simpl.
  - destruct cur; simpl; now rewrite ?app_nil_r.
  - destruct (isspace c); simpl.
    + destruct cur as [|k cur]; simpl; rewrite IH; reflexivity.
    + rewrite IH, <- app_assoc. reflexivity.
Qed.

(** Joining the pieces of [s.split()] by the empty string deletes exactly
    the whitespace characters. *)
Lemma strip_all_whitespace_filter (s : pystr) :
  strip_all_whitespace s = non_whitespace s.
Proof.
  unfold strip_all_whitespace, split.
  now rewrite join_empty_concat, concat_split_from.
Qed.

Lemma non_whitespace_clean (s : pystr) :
  Forall (fun c => isspace c = false) (non_whitespace s).
Proof.
  apply Forall_forall; intros c Hc.
  apply filter_In in Hc. destruct Hc as [_ Hc].
  now apply negb_true_iff in Hc.
Qed.

Lemma non_whitespace_fixed (s : pystr) :
  Forall (fun c => isspace c = false) s -> non_whitespace s = s.
Proof.
  induction 1 as [|c s Hc _ IH]; simpl; [reflexivity|].
  now rewrite Hc, IH.
Qed.


(** C9.  Whitespace normalization is idempotent: normalizing a string that
    is already normalized gives the same string. *)
Theorem strip_all_whitespace_idempotent (s : pystr) :
  strip_all_whitespace (strip_all_whitespace s) = strip_all_whitespace s.
Proof.
  rewrite !strip_all_whitespace_filter.
  apply non_whitespace_fixed, non_whitespace_clean.
Qed.

(** ** [ServerConfig] *)

Lemma post_init_field_ok (value : pyval) (stored : pystr) :
  post_init_field value = Ok stored ->
  exists raw, value = PStr raw /\ stored = non_whitespace raw.
Proof.
  unfold post_init_field, split_method.
  destruct value; simpl; try discriminate.
  intros H. injection H as <-. exists s. split; [reflexivity|].
  apply strip_all_whitespace_filter.
Qed.

Lemma post_init_field_str (raw : pystr) :
  post_init_field (PStr raw) = Ok (non_whitespace raw).
Proof.
  unfold post_init_field; simpl. f_equal. apply strip_all_whitespace_filter.
Qed.


(** C7.  In every constructed [ServerConfig] the three certificate fields
    hold no whitespace character, and each is the text it was given with
    the whitespace characters deleted and nothing else changed; the host
    and the port are stored as given. *)
Theorem constructed_certificates_are_stripped
    (url port server_cert intermediate_cert root_cert : pyval)
    (server_config : ServerConfig) :
  ServerConfig_init url port server_cert intermediate_cert root_cert
    = Ok server_config ->
  exists raw_server raw_intermediate raw_root,
    server_cert = PStr raw_server /\
    intermediate_cert = PStr raw_intermediate /\
    root_cert = PStr raw_root /\
    ServerCert server_config = non_whitespace raw_server /\
    IntermediateCert server_config = non_whitespace raw_intermediate /\
    RootCert server_config = non_whitespace raw_root /\
    Forall (fun c => isspace c = false) (ServerCert server_config) /\
    Forall (fun c => isspace c = false) (IntermediateCert server_config) /\
    Forall (fun c => isspace c = false) (RootCert server_config) /\
    URL server_config = url /\ Port server_config = port.
Proof.
  unfold ServerConfig_init, rbind. intros H.
  destruct (post_init_field server_cert) as [sc|] eqn:Hs; [|discriminate].
  destruct (post_init_field intermediate_cert) as [ic|] eqn:Hi; [|discriminate].
  destruct (post_init_field root_cert) as [rc|] eqn:Hr; [|discriminate].
  injection H as <-. simpl.
  apply post_init_field_ok in Hs, Hi, Hr.
  destruct Hs as (rs & -> & ->), Hi as (ri & -> & ->), Hr as (rr & -> & ->).
  exists rs, ri, rr.
  repeat split; auto using non_whitespace_clean.
Qed.

Lemma constructed_certificates_are_stripped_witness :
  exists server_config,
    ServerConfig_init (PStr (lit "example.com")) (PInt 443)
      (PStr (lit " A a" ++ [10%N; 160%N] ++ lit "A ")) (PStr (lit "B B B"))
      (PStr (lit "CCC")) = Ok server_config /\
    ServerCert server_config = lit "AaA".
Proof.
  eexists. split; [reflexivity|].
  destruct (constructed_certificates_are_stripped
              (PStr (lit "example.com")) (PInt 443)
              (PStr (lit " A a" ++ [10%N; 160%N] ++ lit "A "))
              (PStr (lit "B B B")) (PStr (lit "CCC")) eq_refl)
    as (rs & ri & rr & Hs & _ & _ & Hsc & _).
  injection Hs as <-. exact Hsc.
Defined.

(** ** [extract_certificate] *)

Lemma list_getitem_nonneg {A} (l : list A) (index : Z) :
  (0 <= index < Z.of_nat (length l))%Z ->
  exists x, nth_error l (Z.to_nat index) = Some x /\ list_getitem l index = Ok x.
Proof.
  intros H. unfold list_getitem.
  destruct (Z.ltb_spec index 0); [lia|].
  destruct (Z.leb_spec 0 index); [|lia].
  destruct (Z.ltb_spec index (Z.of_nat (length l))); [|lia]. simpl.
  destruct (nth_error l (Z.to_nat index)) as [x|] eqn:Hn.
  - now exists x.
  - apply nth_error_None in Hn. lia.
Qed.

Lemma list_getitem_negative {A} (l : list A) (index : Z) :
  (- Z.of_nat (length l) <= index < 0)%Z ->
  exists x, nth_error l (Z.to_nat (Z.of_nat (length l) + index)) = Some x /\
            list_getitem l index = Ok x.
Proof.
  intros H. unfold list_getitem.
  destruct (Z.ltb_spec index 0); [|lia].
  destruct (Z.leb_spec 0 (index + Z.of_nat (length l))); [|lia].
  destruct (Z.ltb_spec (index + Z.of_nat (length l)) (Z.of_nat (length l))); [|lia].
  simpl. rewrite (Z.add_comm index).
  destruct (nth_error l (Z.to_nat (Z.of_nat (length l) + index))) as [x|] eqn:Hn.
  - now exists x.
  - apply nth_error_None in Hn. lia.
Qed.

Lemma extract_certificate_nat (cert_chain : list pystr) (position : nat) :
  extract_certificate cert_chain (Z.of_nat position)
  = Ok (option_map strip_all_whitespace (nth_error cert_chain position)).
Proof.
  unfold extract_certificate.
  destruct (Z.gtb_spec (Z.of_nat (length cert_chain)) (Z.of_nat position)) as [Hlt|Hge].
  - destruct (@list_getitem_nonneg _ cert_chain (Z.of_nat position)) as (x & Hx & ->);
      [lia|].
    rewrite Nat2Z.id in Hx. rewrite Hx. reflexivity.
  - assert (Hn : nth_error cert_chain position = None)
      by (apply nth_error_None; lia).
    now rewrite Hn.
Qed.

(** C5.  For an index that is not negative, [extract_certificate] returns
    the entry at the index with all whitespace removed when the index is
    below the length of the chain, and [None] otherwise; it never raises. *)
Theorem extract_certificate_in_range_or_absent
    (cert_chain : list pystr) (index : Z) :
  (0 <= index)%Z ->
  ((index < Z.of_nat (length cert_chain))%Z ->
     exists entry,
       nth_error cert_chain (Z.to_nat index) = Some entry /\
       extract_certificate cert_chain index = Ok (Some (non_whitespace entry))) /\
  ((Z.of_nat (length cert_chain) <= index)%Z ->
     extract_certificate cert_chain index = Ok None) /\
  (forall e, extract_certificate cert_chain index <> Raise e).
Proof.
  intros Hpos.
  assert (Hx : extract_certificate cert_chain index
               = Ok (option_map strip_all_whitespace
                       (nth_error cert_chain (Z.to_nat index))))
    by (rewrite <- extract_certificate_nat; f_equal; lia).
  rewrite Hx. repeat split.
  - intros Hlt.
    destruct (nth_error cert_chain (Z.to_nat index)) as [entry|] eqn:Hn.
    + exists entry. simpl. now rewrite strip_all_whitespace_filter.
    + apply nth_error_None in Hn. lia.
  - intros Hge.
    assert (Hn : nth_error cert_chain (Z.to_nat index) = None)
      by (apply nth_error_None; lia).
    now rewrite Hn.
  - discriminate.
Qed.

Lemma extract_certificate_in_range_or_absent_witness :
  extract_certificate [lit " A A"; lit "B"] 1 = Ok (Some (lit "B")) /\
  extract_certificate [lit " A A"; lit "B"] 2 = Ok None.
Proof.
  split.
  - destruct (@extract_certificate_in_range_or_absent [lit " A A"; lit "B"] 1)
      as [Hin _]; [lia|].
    destruct Hin as (entry & Hn & ->); [simpl; lia|].
    injection Hn as <-. reflexivity.
  - apply (@extract_certificate_in_range_or_absent [lit " A A"; lit "B"] 2);
      simpl; lia.
Defined.

(** C10.  For a chain that is not empty and a negative index no lower than
    minus its length, [extract_certificate] does not return [None]: the
    test on the length lets the index through, and the normalized entry
    counted from the end, at the length plus the index, is returned. *)
Theorem extract_certificate_negative_index
    (cert_chain : list pystr) (index : Z) :
  cert_chain <> [] ->
  (- Z.of_nat (length cert_chain) <= index < 0)%Z ->
  exists entry,
    nth_error cert_chain (Z.to_nat (Z.of_nat (length cert_chain) + index))
      = Some entry /\
    extract_certificate cert_chain index = Ok (Some (non_whitespace entry)) /\
    extract_certificate cert_chain index <> Ok None.
Proof.
  intros _ H. unfold extract_certificate.
  destruct (Z.gtb_spec (Z.of_nat (length cert_chain)) index); [|lia].
  destruct (list_getitem_negative cert_chain H) as (entry & Hn & ->).
  exists entry. simpl. rewrite strip_all_whitespace_filter.
  repeat split; [assumption | discriminate].
Qed.

Lemma extract_certificate_negative_index_witness :
  extract_certificate [lit "A"; lit "B B"; lit "C"] (-2) = Ok (Some (lit "BB")).
Proof.
  destruct (@extract_certificate_negative_index
              [lit "A"; lit "B B"; lit "C"] (-2)) as (entry & Hn & -> & _).
  - discriminate.
  - simpl; lia.
  - injection Hn as <-. reflexivity.
Defined.

(** Below minus the length the subscript itself raises. *)
Lemma extract_certificate_below_range (cert_chain : list pystr) (index : Z) :
  (index < - Z.of_nat (length cert_chain))%Z ->
  extract_certificate cert_chain index = Raise IndexError.
Proof.
  intros H. unfold extract_certificate, list_getitem.
  destruct (Z.gtb_spec (Z.of_nat (length cert_chain)) index); [|lia].
  destruct (Z.ltb_spec index 0); [|lia].
  destruct (Z.leb_spec 0 (index + Z.of_nat (length cert_chain))); [lia|].
  reflexivity.
Qed.

(** ** The comparison *)

Lemma str_eq_true (pinned : pystr) (retrieved : option pystr) :
  str_eq pinned retrieved = true <->
  exists s, retrieved = Some s /\ s = pinned.
Proof.
  destruct retrieved as [s|]; simpl.
  - rewrite pystr_eqb_eq. split.
    + intros ->. now exists s.
    + intros (s' & Hs & <-). congruence.
  - split; [discriminate | intros (s & Hs & _); discriminate].
Qed.

Lemma str_eq_extracted (pinned : pystr) (chain : list pystr) (position : nat) :
  str_eq pinned (option_map strip_all_whitespace (nth_error chain position)) = true
  <-> matches_at pinned chain position.
Proof.
  rewrite str_eq_true. unfold matches_at.
  destruct (nth_error chain position) as [entry|]; simpl; split.
  - intros (s & Hs & <-). injection Hs as <-. now exists entry.
  - intros (e & He & <-). injection He as <-. eauto.
  - intros (s & Hs & _); discriminate.
  - intros (e & He & _); discriminate.
Qed.

(** The comparison written out: the handler's decision is the conjunction
    of the three tests on the positions 0, 1 and 2, guarded by the test on
    the empty chain. *)
Lemma decide_unfold (server_config : ServerConfig) (chain : list pystr) :
  decide server_config chain =
  Ok (match chain with
      | [] => Deny
      | _ :: _ =>
          if str_eq (ServerCert server_config)
               (option_map strip_all_whitespace (nth_error chain 0))
             && (str_eq (IntermediateCert server_config)
                   (option_map strip_all_whitespace (nth_error chain 1))
                 && (str_eq (RootCert server_config)
                       (option_map strip_all_whitespace (nth_error chain 2))
                     && true))
          then Allow else Deny
      end).
Proof.
  destruct chain as [|c chain]; [reflexivity|].
  unfold decide.
  change 0%Z with (Z.of_nat 0). change 1%Z with (Z.of_nat 1).
  change 2%Z with (Z.of_nat 2).
  rewrite !extract_certificate_nat.
  unfold rbind, cert_results. simpl.
  match goal with |- (if ?b then _ else _) = _ => now destruct b end.
Qed.

Lemma decide_total (server_config : ServerConfig) (chain : list pystr) :
  exists d, decide server_config chain = Ok d.
Proof. rewrite decide_unfold. eauto. Qed.

Lemma decide_allow_iff (server_config : ServerConfig) (chain : list pystr) :
  decide server_config chain = Ok Allow <->
  matches_at (ServerCert server_config) chain 0 /\
  matches_at (IntermediateCert server_config) chain 1 /\
  matches_at (RootCert server_config) chain 2.
Proof.
  rewrite decide_unfold, <- !str_eq_extracted.
  destruct chain as [|c chain].
  - simpl. split; [discriminate | intros (H & _); discriminate].
  - set (a := str_eq _ (option_map _ (nth_error (c :: chain) 0))).
    set (b := str_eq _ (option_map _ (nth_error (c :: chain) 1))).
    set (r := str_eq _ (option_map _ (nth_error (c :: chain) 2))).
    destruct a, b, r; simpl; split; intros H;
      try discriminate; try tauto; try reflexivity;
      destruct H as (? & ? & ?); discriminate.
Qed.

Lemma matches_at_equals_pin (pinned : pystr) (chain : list pystr) (position : nat) :
  matches_at pinned chain position <-> equals_pin_at pinned chain position.
Proof.
  unfold matches_at, equals_pin_at.
  split; intros (entry & Hn & He); exists entry;
    (split; [exact Hn|]); now rewrite strip_all_whitespace_filter in *.
Qed.

(** C1.  The decision is Allow exactly when each of the positions 0, 1, 2
    of the retrieved chain exists and its entry, with the whitespace
    characters deleted, equals the pinned field of that position;
    otherwise, one mismatch or one absent position being enough, it is
    Deny; and an absent retrieved value equals no pinned string. *)
Theorem decide_allow_iff_all_positions_match
    (server_config : ServerConfig) (retrieved_cert_chain : list pystr) :
  (decide server_config retrieved_cert_chain = Ok Allow <->
     equals_pin_at (ServerCert server_config) retrieved_cert_chain 0 /\
     equals_pin_at (IntermediateCert server_config) retrieved_cert_chain 1 /\
     equals_pin_at (RootCert server_config) retrieved_cert_chain 2) /\
  (~ equals_pin_at (ServerCert server_config) retrieved_cert_chain 0 \/
   ~ equals_pin_at (IntermediateCert server_config) retrieved_cert_chain 1 \/
   ~ equals_pin_at (RootCert server_config) retrieved_cert_chain 2 ->
     decide server_config retrieved_cert_chain = Ok Deny) /\
  (forall pinned position,
     nth_error retrieved_cert_chain position = None ->
     extract_certificate retrieved_cert_chain (Z.of_nat position) = Ok None /\
     str_eq pinned None = false /\
     ~ equals_pin_at pinned retrieved_cert_chain position).
Proof.
  rewrite <- !matches_at_equals_pin.
  split; [apply decide_allow_iff|]. split.
  - intros Hno.
    destruct (decide_total server_config retrieved_cert_chain) as [[|] Hd];
      [|exact Hd].
    apply decide_allow_iff in Hd. tauto.
  - intros pinned position Hn. rewrite extract_certificate_nat, Hn.
    repeat split. intros (entry & He & _). congruence.
Qed.

Lemma decide_allow_iff_all_positions_match_witness :
  decide Sample.config [lit " A A A" ++ [10%N]; lit "B B B"; lit "CCC"] = Ok Allow /\
  decide Sample.config [lit "AAA"; lit "XXX"; lit "CCC"] = Ok Deny /\
  decide Sample.config [lit "aaa"; lit "BBB"; lit "CCC"] = Ok Deny.
Proof.
  split; [|split].
  - apply (@decide_allow_iff_all_positions_match Sample.config
             [lit " A A A" ++ [10%N]; lit "B B B"; lit "CCC"]).
    repeat split; eexists; split; reflexivity.
  - apply (@decide_allow_iff_all_positions_match Sample.config
             [lit "AAA"; lit "XXX"; lit "CCC"]).
    right; left. intros (entry & Hn & He). injection Hn as <-. discriminate.
  - apply (@decide_allow_iff_all_positions_match Sample.config
             [lit "aaa"; lit "BBB"; lit "CCC"]).
    left. intros (entry & Hn & He). injection Hn as <-. discriminate.
Defined.

(** C2.  A retrieved chain of fewer than three entries, the empty chain
    included, is denied whatever the pinned values are. *)
Theorem decide_short_chain_denies
    (server_config : ServerConfig) (retrieved_cert_chain : list pystr) :
  length retrieved_cert_chain < 3 ->
  decide server_config retrieved_cert_chain = Ok Deny /\
  decide server_config retrieved_cert_chain <> Ok Allow.
Proof.
  intros Hlen.
  assert (Hd : decide server_config retrieved_cert_chain = Ok Deny).
  { destruct (decide_total server_config retrieved_cert_chain) as [[|] Hd];
      [|exact Hd].
    apply decide_allow_iff in Hd. destruct Hd as (_ & _ & entry & Hn & _).
    assert (nth_error retrieved_cert_chain 2 <> None) by congruence.
    apply nth_error_Some in H. lia. }
  split; [exact Hd | rewrite Hd; discriminate].
Qed.

Lemma decide_short_chain_denies_witness :
  decide Sample.config [lit "AAA"; lit "BBB"] = Ok Deny /\
  decide Sample.config [] = Ok Deny.
Proof.
  split.
  - apply (@decide_short_chain_denies Sample.config [lit "AAA"; lit "BBB"]).
    simpl; lia.
  - apply (@decide_short_chain_denies Sample.config []). simpl; lia.
Defined.

(** The scenarios of the pinned chain AAA, BBB, CCC. *)
Example decide_scenarios :
  decide Sample.config [lit " A A A" ++ [10%N]; lit "B B B"; lit "CCC"] = Ok Allow /\
  decide Sample.config [lit "AAA"; lit "XXX"; lit "CCC"] = Ok Deny /\
  decide Sample.config [lit "AAA"; lit "BBB"; lit "CCC"; lit "DDD"] = Ok Allow.
Proof. repeat split. Qed.

(** ** [get_certificate_chain] *)

Lemma comprehension_ok {A B} (f : A -> result B) (xs : list A) (ys : list B) :
  comprehension f xs = Ok ys <-> Forall2 (fun x y => f x = Ok y) xs ys.
Proof.
  revert ys; induction xs as [|x xs IH]; intros ys; simpl.
  - split.
    + intros H; injection H as <-; constructor.
    + intros H; inversion H; reflexivity.
  - unfold rbind. split.
    + destruct (f x) as [y|] eqn:Hx; [|discriminate].
      destruct (comprehension f xs) as [ys'|] eqn:Hxs; [|discriminate].
      intros H; injection H as <-. constructor; [assumption|]. now apply IH.
    + intros H; inversion H as [|? y ? ys' Hx Hxs]; subst.
      rewrite Hx. apply IH in Hxs. now rewrite Hxs.
Qed.

Lemma comprehension_raises {A B} (f : A -> result B) (xs : list A) :
  (exists x e, In x xs /\ f x = Raise e) ->
  exists e, comprehension f xs = Raise e.
Proof.
  induction xs as [|x xs IH]; intros (x0 & e & Hin & Hf); [destruct Hin|].
  simpl. unfold rbind.
  destruct (f x) as [y|e1] eqn:Hx; [|eauto].
  destruct Hin as [->|Hin]; [congruence|].
  destruct IH as [e2 ->]; eauto.
Qed.

Lemma comprehension_all_ok {A B} (f : A -> result B) (xs : list A) :
  (forall x, In x xs -> exists y, f x = Ok y) ->
  exists ys, comprehension f xs = Ok ys.
Proof.
  induction xs as [|x xs IH]; intros H; simpl; [eauto|].
  destruct (H x) as [y ->]; [now left|].
  destruct IH as [ys ->]; [intros; apply H; now right|].
  simpl. eauto.
Qed.

(** The retrieval never raises: whatever the body of its [try] does, a
    list comes back. *)
Lemma get_certificate_chain_total (w : World) (hostname port : pyval) (t : trace) :
  exists chain t', get_certificate_chain w hostname port t = (Ok chain, t').
Proof.
  unfold get_certificate_chain, try_except, bind, ret.
  destruct (retrieve_chain w hostname port t) as [[pems|e] t']; eauto.
Qed.

(** When the body of the [try] raises, the retrieval returns the empty
    list. *)
Lemma get_certificate_chain_caught
    (w : World) (hostname port : pyval) (t t' : trace) (e : py_exception) :
  retrieve_chain w hostname port t = (Raise e, t') ->
  get_certificate_chain w hostname port t = (Ok [], t').
Proof.
  intros H. unfold get_certificate_chain, try_except, bind, ret. now rewrite H.
Qed.

Lemma get_certificate_chain_returned
    (w : World) (hostname port : pyval) (t t' : trace) (pems : list pystr) :
  retrieve_chain w hostname port t = (Ok pems, t') ->
  get_certificate_chain w hostname port t = (Ok pems, t').
Proof.
  intros H. unfold get_certificate_chain, try_except, bind, ret. now rewrite H.
Qed.

(** The body of the [try], stage by stage. *)
Lemma retrieve_chain_stages (w : World) (hostname port : pyval) (t : trace) :
  retrieve_chain w hostname port t =
  match create_default_context w with
  | Raise e => (Raise e, t)
  | Ok _ =>
      let t1 := t ++ [Call_create_connection hostname port] in
      match create_connection w hostname port with
      | Raise e => (Raise e, t1)
      | Ok sock =>
          let t2 := t1 ++ [Call_wrap_socket sock hostname] in
          let inner :=
            match wrap_socket w sock hostname with
            | Raise e => (Raise e, t2)
            | Ok ssock =>
                let body :=
                  match get_verified_chain w ssock with
                  | Raise e => Raise e
                  | Ok cert_chain =>
                      comprehension (DER_cert_to_PEM_cert w) cert_chain
                  end in
                match close w ssock with
                | Ok _ => (body, t2 ++ [Call_close ssock])
                | Raise e => (Raise e, t2 ++ [Call_close ssock])
                end
            end in
          match close w sock with
          | Ok _ => (fst inner, snd inner ++ [Call_close sock])
          | Raise e => (Raise e, snd inner ++ [Call_close sock])
          end
      end
  end.
Proof.
  unfold retrieve_chain, with_as, bind, lift, call, ret.
  destruct (create_default_context w) as [[]|e0]; [|reflexivity].
  destruct (create_connection w hostname port) as [sock|e1]; [|reflexivity].
  cbv zeta.
  destruct (wrap_socket w sock hostname) as [ssock|e2]; simpl.
  - destruct (get_verified_chain w ssock) as [cert_chain|e3]; simpl.
    + destruct (comprehension (DER_cert_to_PEM_cert w) cert_chain);
        destruct (close w ssock); simpl; destruct (close w sock); reflexivity.
    + destruct (close w ssock); simpl; destruct (close w sock); reflexivity.
  - destruct (close w sock); reflexivity.
Qed.

Lemma raised_gives_empty
    (w : World) (hostname port : pyval) (t t' : trace) (chain : list pystr) :
  get_certificate_chain w hostname port t = (Ok chain, t') ->
  (exists e, fst (retrieve_chain w hostname port t) = Raise e) ->
  chain = [].
Proof.
  intros H [e He].
  destruct (retrieve_chain w hostname port t) as [r t1] eqn:Hr. simpl in He. subst r.
  rewrite (get_certificate_chain_caught _ _ _ _ Hr) in H. congruence.
Qed.

Ltac stage_fails :=
  rewrite retrieve_chain_stages;
  repeat match goal with
         | H : _ = Ok _ |- _ => rewrite H
         | H : _ = Raise _ |- _ => rewrite H
         end;
  cbv zeta; simpl;
  repeat match goal with
         | |- context [match ?r with Ok _ => _ | Raise _ => _ end] =>
             destruct r; simpl
         end;
  eauto.

(** C3.  The retrieval always returns a list and raises nothing.  A failure
    of any stage (the TLS context, the connection with its name resolution
    and time-out, the handshake, the reading of the verified chain, the
    conversion of one certificate, the closing of a socket) makes the list
    empty; when every stage succeeds the list holds, in the order of the
    verified chain, the PEM text of each of its certificates. *)
Theorem get_certificate_chain_empty_on_failure
    (w : World) (hostname port : pyval) (t : trace) :
  exists chain t',
    get_certificate_chain w hostname port t = (Ok chain, t') /\
    ((exists e, create_default_context w = Raise e) -> chain = []) /\
    ((exists e, create_connection w hostname port = Raise e) -> chain = []) /\
    (forall sock,
       create_connection w hostname port = Ok sock ->
       ((exists e, wrap_socket w sock hostname = Raise e) -> chain = []) /\
       ((exists e, close w sock = Raise e) -> chain = []) /\
       (forall ssock,
          wrap_socket w sock hostname = Ok ssock ->
          ((exists e, get_verified_chain w ssock = Raise e) -> chain = []) /\
          ((exists e, close w ssock = Raise e) -> chain = []) /\
          (forall cert_chain,
             get_verified_chain w ssock = Ok cert_chain ->
             ((exists cert e, In cert cert_chain /\
                              DER_cert_to_PEM_cert w cert = Raise e) ->
              chain = []) /\
             (create_default_context w = Ok tt ->
              close w ssock = Ok tt ->
              close w sock = Ok tt ->
              (forall cert, In cert cert_chain ->
                 exists pem, DER_cert_to_PEM_cert w cert = Ok pem) ->
              Forall2 (fun cert pem => DER_cert_to_PEM_cert w cert = Ok pem)
                cert_chain chain /\
              length chain = length cert_chain)))).
Proof.
  destruct (get_certificate_chain_total w hostname port t) as (chain & t' & H).
  exists chain, t'. split; [exact H|].
  pose proof (@raised_gives_empty w hostname port t t' chain H) as Hempty.
  split; [intros [e He]; apply Hempty; stage_fails|].
  split; [intros [e He]; apply Hempty; stage_fails|].
  intros sock Hsock.
  split; [intros [e He]; apply Hempty; stage_fails|].
  split; [intros [e He]; apply Hempty; stage_fails|].
  intros ssock Hssock.
  split; [intros [e He]; apply Hempty; stage_fails|].
  split; [intros [e He]; apply Hempty; stage_fails|].
  intros cert_chain Hchain. split.
  - intros Hbad. apply comprehension_raises in Hbad. destruct Hbad as [e He].
    apply Hempty. stage_fails.
  - intros Hctx Hc1 Hc2 Hall.
    apply comprehension_all_ok in Hall. destruct Hall as [pems Hpems].
    assert (Hr : retrieve_chain w hostname port t
                 = (Ok pems, ((t ++ [Call_create_connection hostname port])
                               ++ [Call_wrap_socket sock hostname])
                               ++ [Call_close ssock] ++ [Call_close sock])).
    { rewrite retrieve_chain_stages, Hctx, Hsock. cbv zeta.
      rewrite Hssock, Hchain, Hpems, Hc1, Hc2. simpl.
      now rewrite <- app_assoc. }
    rewrite (get_certificate_chain_returned _ _ _ _ Hr) in H.
    injection H as <- _.
    apply comprehension_ok in Hpems. split; [exact Hpems|].
    symmetry. eapply Forall2_length, Hpems.
Qed.

(** ** [lambda_handler] *)

(** On an event that carries the source address and the method ARN, the
    handler is the cascade of its four returns. *)
Lemma lambda_handler_gateway
    (w : World) (event source_ip method_arn : pyval) (t : trace) :
  gateway_event event source_ip method_arn ->
  lambda_handler w event t =
  match os_getenv w (lit "secret_name") with
  | None | Some [] =>
      (Ok (generate_policy source_ip (effect_of Deny) method_arn), t)
  | Some ((_ :: _) as name) =>
      match load_server_config w name t with
      | (Raise _, t1) =>
          (Ok (generate_policy (PStr (lit "user")) (effect_of Deny) method_arn), t1)
      | (Ok server_config, t1) =>
          match get_certificate_chain w (URL server_config) (Port server_config) t1 with
          | (Ok chain, t2) =>
              match decide server_config chain with
              | Ok d => (Ok (generate_policy source_ip (effect_of d) method_arn), t2)
              | Raise e => (Raise e, t2)
              end
          | (Raise e, t2) => (Raise e, t2)
          end
      end
  end.
Proof.
  intros (rc & idn & Hrc & Hidn & Hip & Harn).
  unfold lambda_handler, bind, lift, try_except, ret.
  rewrite Hrc, Hidn, Hip.
  destruct (os_getenv w (lit "secret_name")) as [[|c name]|];
    try (rewrite Harn; reflexivity).
  destruct (load_server_config w (c :: name) t) as [[cfg|e] t1];
    [|rewrite Harn; reflexivity].
  destruct (get_certificate_chain w (URL cfg) (Port cfg) t1) as [[chain|e] t2];
    [|reflexivity].
  destruct (decide cfg chain); [rewrite Harn|]; reflexivity.
Qed.

(** The loading of the configuration calls Secrets Manager once and
    nothing else. *)
Lemma load_server_config_trace (w : World) (name : pystr) (t : trace) :
  snd (load_server_config w name t) = t ++ [Call_get_secret_value name].
Proof.
  unfold load_server_config, bind, lift, call.
  destruct (get_secret_value w name) as [resp|]; [|reflexivity].
  destruct (getitem resp (lit "SecretString")) as [ss|]; [|reflexivity].
  destruct (json_loads w ss); reflexivity.
Qed.


(** What [generate_policy] builds reads as a policy of its three
    arguments. *)
Lemma generate_policy_reads
    (principal_id resource : pyval) (decision : Decision) :
  reads_as_policy (generate_policy principal_id (effect_of decision) resource)
    principal_id (effect_text decision) resource.
Proof.
  split; [reflexivity|].
  do 2 eexists. split; [reflexivity|]. split; [reflexivity|].
  split; [reflexivity|]. split; [reflexivity|].
  split; [destruct decision|]; reflexivity.
Qed.

Lemma effect_text_cases (decision : Decision) :
  effect_text decision = lit "Allow" \/ effect_text decision = lit "Deny".
Proof. destruct decision; [left | right]; reflexivity. Qed.

(** C6, as the code has it.  For every event that carries
    [requestContext.identity.sourceIp] and [methodArn], and every world,
    the handler returns, on each of its paths, a well-formed policy
    document: its [principalId] can be read, and its [policyDocument]
    holds the version and one statement whose action is
    [execute-api:Invoke], whose effect is the text Allow or the text Deny
    and whose resource is the method ARN of the event.  No exception
    escapes. *)
Theorem lambda_handler_returns_policy
    (w : World) (event source_ip method_arn : pyval) (t : trace) :
  gateway_event event source_ip method_arn ->
  exists policy t',
    lambda_handler w event t = (Ok policy, t') /\
    well_formed_policy policy /\
    exists principal_id effect,
      (effect = lit "Allow" \/ effect = lit "Deny") /\
      reads_as_policy policy principal_id effect method_arn.
Proof.
  intros Hev. rewrite (lambda_handler_gateway w t Hev).
  assert (Hwf : forall p d (t' : trace),
             exists (policy : pyval) (t'' : trace),
               (Ok (generate_policy p (effect_of d) method_arn), t')
               = (Ok policy, t'') /\
               well_formed_policy policy /\
               exists principal_id effect,
                 (effect = lit "Allow" \/ effect = lit "Deny") /\
                 reads_as_policy policy principal_id effect method_arn).
  { intros p d t'. do 2 eexists. split; [reflexivity|].
    pose proof (generate_policy_reads p method_arn d) as Hr.
    pose proof (effect_text_cases d) as Hc.
    split; [exists p, (effect_text d), method_arn | exists p, (effect_text d)];
      now split. }
  destruct (os_getenv w (lit "secret_name")) as [[|c name]|]; try apply Hwf.
  destruct (load_server_config w (c :: name) t) as [[cfg|e] t1]; [|apply Hwf].
  destruct (get_certificate_chain_total w (URL cfg) (Port cfg) t1)
    as (chain & t2 & ->).
  destruct (decide_total cfg chain) as [d ->]. apply Hwf.
Qed.

Lemma sample_event_is_gateway_event :
  gateway_event Sample.event Sample.source_ip Sample.method_arn.
Proof. do 2 eexists. repeat split; reflexivity. Qed.

Lemma lambda_handler_returns_policy_witness :
  exists policy t' principal_id effect,
    lambda_handler (Sample.world Sample.missing_root) Sample.event []
    = (Ok policy, t') /\
    (effect = lit "Allow" \/ effect = lit "Deny") /\
    reads_as_policy policy principal_id effect Sample.method_arn.
Proof.
  destruct (@lambda_handler_returns_policy (Sample.world Sample.missing_root)
              Sample.event Sample.source_ip Sample.method_arn []
              sample_event_is_gateway_event)
    as (policy & t' & H & _ & p & eff & Heff & Hreads).
  exists policy, t', p, eff. auto.
Defined.

(** C6, as stated, fails: an event without [requestContext] makes the
    first statement of the handler raise [KeyError], and so does an event
    without [methodArn] when the policy is built. *)
Lemma lambda_handler_raises_on_bare_event :
  lambda_handler (Sample.world Sample.pinned) (PDict []) [] = (Raise KeyError, []) /\
  fst (lambda_handler (Sample.world Sample.pinned)
         (PDict [(lit "requestContext",
                  PDict [(lit "identity",
                          PDict [(lit "sourceIp", PStr (lit "203.0.113.7"))])])])
         [])
  = Raise KeyError.
Proof. split; reflexivity. Qed.

(** C8.  On the path where loading the configuration raises, the
    [principalId] read in the returned policy is the fixed text [user]; on
    every other path (no secret name, failed or successful retrieval,
    comparison allowing or denying) it is the source address of the
    caller.  On each path the policy reads as a policy for the method ARN
    with that principal and the effect of the path. *)
Theorem principal_id_by_path
    (w : World) (event source_ip method_arn : pyval) (t : trace) :
  gateway_event event source_ip method_arn ->
  (os_getenv w (lit "secret_name") = None \/
   os_getenv w (lit "secret_name") = Some [] ->
     exists policy,
       lambda_handler w event t = (Ok policy, t) /\
       policy = generate_policy source_ip (effect_of Deny) method_arn /\
       getitem policy (lit "principalId") = Ok source_ip /\
       reads_as_policy policy source_ip (lit "Deny") method_arn) /\
  (forall name,
     os_getenv w (lit "secret_name") = Some name -> name <> [] ->
     (forall e t1,
        load_server_config w name t = (Raise e, t1) ->
        exists policy,
          lambda_handler w event t = (Ok policy, t1) /\
          policy = generate_policy (PStr (lit "user")) (effect_of Deny) method_arn /\
          getitem policy (lit "principalId") = Ok (PStr (lit "user")) /\
          reads_as_policy policy (PStr (lit "user")) (lit "Deny") method_arn) /\
     (forall server_config t1,
        load_server_config w name t = (Ok server_config, t1) ->
        exists chain t2 decision policy,
          get_certificate_chain w (URL server_config) (Port server_config) t1
          = (Ok chain, t2) /\
          decide server_config chain = Ok decision /\
          (chain = [] -> decision = Deny) /\
          lambda_handler w event t = (Ok policy, t2) /\
          policy = generate_policy source_ip (effect_of decision) method_arn /\
          getitem policy (lit "principalId") = Ok source_ip /\
          reads_as_policy policy source_ip (effect_text decision) method_arn)).
Proof.
  intros Hev. rewrite (lambda_handler_gateway w t Hev).
  assert (Hread : forall p d policy,
             policy = generate_policy p (effect_of d) method_arn ->
             getitem policy (lit "principalId") = Ok p /\
             reads_as_policy policy p (effect_text d) method_arn).
  { intros p d policy ->. split; [reflexivity | apply generate_policy_reads]. }
  split.
  - intros Henv. eexists. split; [destruct Henv as [-> | ->]; reflexivity|].
    split; [reflexivity|]. now apply (Hread source_ip Deny).
  - intros name -> Hname. destruct name as [|c name]; [congruence|]. split.
    + intros e t1 ->. eexists. split; [reflexivity|].
      split; [reflexivity|]. now apply (Hread (PStr (lit "user")) Deny).
    + intros cfg t1 ->.
      destruct (get_certificate_chain_total w (URL cfg) (Port cfg) t1)
        as (chain & t2 & ->).
      destruct (decide_total cfg chain) as [d Hd]. rewrite Hd.
      exists chain, t2, d. eexists.
      split; [reflexivity|]. split; [exact Hd|].
      split; [intros ->; simpl in Hd; congruence|].
      split; [reflexivity|]. split; [reflexivity|]. now apply Hread.
Qed.

Lemma principal_id_by_path_witness :
  (exists policy,
     lambda_handler (Sample.world Sample.missing_root) Sample.event []
     = (Ok policy, [Call_get_secret_value (lit "pins")]) /\
     getitem policy (lit "principalId") = Ok (PStr (lit "user")) /\
     reads_as_policy policy (PStr (lit "user")) (lit "Deny") Sample.method_arn) /\
  (exists policy t',
     lambda_handler (Sample.world Sample.pinned) Sample.event []
     = (Ok policy, t') /\
     getitem policy (lit "principalId") = Ok Sample.source_ip /\
     reads_as_policy policy Sample.source_ip (lit "Allow") Sample.method_arn).
Proof.
  split.
  - destruct (@principal_id_by_path (Sample.world Sample.missing_root)
                Sample.event Sample.source_ip Sample.method_arn []
                sample_event_is_gateway_event) as [_ H].
    destruct (H (lit "pins") eq_refl) as [Hfail _]; [discriminate|].
    destruct (Hfail TypeError [Call_get_secret_value (lit "pins")] eq_refl)
      as (policy & Hh & _ & Hp & Hr).
    exists policy. auto.
  - destruct (@principal_id_by_path (Sample.world Sample.pinned)
                Sample.event Sample.source_ip Sample.method_arn []
                sample_event_is_gateway_event) as [_ H].
    destruct (H (lit "pins") eq_refl) as [_ Hok]; [discriminate|].
    destruct (Hok Sample.config [Call_get_secret_value (lit "pins")] eq_refl)
      as (chain & t2 & d & policy & Hchain & Hd & _ & Hh & _ & Hp & Hr).
    injection Hchain as <- <-.
    injection Hd as <-.
    exists policy. eexists. split; [exact Hh|]. split; [exact Hp | exact Hr].
Defined.

(** ** Construction of the configuration *)




(** * Further properties of the code *)

(** ** Normalization *)

Lemma non_whitespace_app (a b : pystr) :
  non_whitespace (a ++ b) = non_whitespace a ++ non_whitespace b.
Proof. apply filter_app. Qed.

Lemma printable_not_space (c : N) : printable c = true -> isspace c = false.
Proof.
  unfold printable, isspace. intros H.
  apply andb_true_iff in H. destruct H as [Hlo Hhi].
  apply N.leb_le in Hlo, Hhi.
  repeat match goal with
         | |- context [(?a <=? ?b)%N] => destruct (N.leb_spec a b); try lia
         | |- context [(?a =? ?b)%N] => destruct (N.eqb_spec a b); try lia
         end;
    try reflexivity.
Qed.

(** X1.  A whitespace character inserted anywhere in a text does not change
    its normalization. *)
Theorem strip_ignores_inserted_whitespace (before after : pystr) (c : N) :
  isspace c = true ->
  strip_all_whitespace (before ++ c :: after)
  = strip_all_whitespace (before ++ after).
Proof.
  intros Hc. rewrite !strip_all_whitespace_filter, !non_whitespace_app.
  simpl. now rewrite Hc.
Qed.

Lemma strip_ignores_inserted_whitespace_witness :
  strip_all_whitespace (lit "MIIB" ++ 10%N :: lit "kQ==") = lit "MIIBkQ==".
Proof.
  rewrite (@strip_ignores_inserted_whitespace (lit "MIIB") (lit "kQ==") 10%N eq_refl).
  reflexivity.
Defined.

(** X2.  Normalization distributes over concatenation: the normalization of
    two texts put together is the two normalizations put together. *)
Theorem strip_all_whitespace_app (a b : pystr) :
  strip_all_whitespace (a ++ b) = strip_all_whitespace a ++ strip_all_whitespace b.
Proof. rewrite !strip_all_whitespace_filter. apply non_whitespace_app. Qed.

(** X3.  Normalization leaves a text unchanged exactly when the text holds
    no whitespace character, and it never makes a text longer. *)
Theorem strip_all_whitespace_fixed_iff (s : pystr) :
  (strip_all_whitespace s = s <-> Forall (fun c => isspace c = false) s) /\
  length (strip_all_whitespace s) <= length s.
Proof.
  rewrite strip_all_whitespace_filter. split.
  - split.
    + intros H. rewrite <- H. apply non_whitespace_clean.
    + apply non_whitespace_fixed.
  - apply filter_length_le.
Qed.

(** X4.  A text made of printable ASCII characters other than the space,
    such as one line of a PEM certificate, is kept as it is: normalization
    deletes none of its characters. *)
Theorem strip_keeps_printable_text (s : pystr) :
  Forall (fun c => printable c = true) s -> strip_all_whitespace s = s.
Proof.
  intros H. rewrite strip_all_whitespace_filter. apply non_whitespace_fixed.
  eapply Forall_impl; [|exact H]. intros c. apply printable_not_space.
Qed.

Lemma strip_keeps_printable_text_witness :
  strip_all_whitespace (lit "-----BEGIN-CERTIFICATE-----MIIB+/kQ==")
  = lit "-----BEGIN-CERTIFICATE-----MIIB+/kQ==".
Proof.
  apply strip_keeps_printable_text.
  repeat (constructor; [reflexivity|]). constructor.
Defined.

(** ** [extract_certificate] on every index *)

(** X5.  [extract_certificate] raises exactly when the index is below minus
    the length of the chain, and the exception is then [IndexError]; on an
    empty chain every negative index raises. *)
Theorem extract_certificate_raises_iff
    (cert_chain : list pystr) (index : Z) (e : py_exception) :
  extract_certificate cert_chain index = Raise e <->
  (index < - Z.of_nat (length cert_chain))%Z /\ e = IndexError.
Proof.
  split.
  - intros H.
    destruct (Z.lt_ge_cases index (- Z.of_nat (length cert_chain))) as [Hlow|Hge].
    + rewrite (extract_certificate_below_range cert_chain Hlow) in H.
      split; [assumption | congruence].
    + exfalso. destruct (Z.lt_ge_cases index 0) as [Hneg|Hpos].
      * unfold extract_certificate in H.
        destruct (Z.gtb_spec (Z.of_nat (length cert_chain)) index); [|lia].
        destruct (@list_getitem_negative _ cert_chain index) as (x & _ & Hx);
          [lia|].
        rewrite Hx in H. discriminate.
      * rewrite <- (Z2Nat.id index Hpos), extract_certificate_nat in H.
        discriminate.
  - intros [Hlow ->]. now apply extract_certificate_below_range.
Qed.

(** ** The comparison, further *)

(** X6.  The decision reads the first three entries of the retrieved chain
    only: what follows them changes nothing. *)
Theorem decide_reads_first_three
    (server_config : ServerConfig) (retrieved_cert_chain : list pystr) :
  decide server_config retrieved_cert_chain
  = decide server_config (firstn 3 retrieved_cert_chain).
Proof.
  rewrite !decide_unfold.
  destruct retrieved_cert_chain as [|a [|b [|c rest]]]; reflexivity.
Qed.

Lemma nth_error_stripped (chain : list pystr) (position : nat) :
  option_map strip_all_whitespace (nth_error chain position)
  = nth_error (map strip_all_whitespace chain) position.
Proof. symmetry. apply nth_error_map. Qed.

(** X7.  Two retrieved chains whose entries have the same normalizations,
    position by position, get the same decision: the layout of the
    retrieved texts does not count. *)
Theorem decide_ignores_layout
    (server_config : ServerConfig) (chain chain' : list pystr) :
  map strip_all_whitespace chain = map strip_all_whitespace chain' ->
  decide server_config chain = decide server_config chain'.
Proof.
  intros H. rewrite !decide_unfold, !nth_error_stripped, H.
  destruct chain as [|c chain], chain' as [|c' chain'];
    try discriminate; reflexivity.
Qed.

Lemma decide_ignores_layout_witness :
  decide Sample.config [lit "AAA"; lit "B B" ++ [10%N] ++ lit "B"; lit " CCC"]
  = decide Sample.config [lit " A A A"; lit "BBB"; lit "CCC"].
Proof.
  apply decide_ignores_layout. reflexivity.
Defined.

(** X8.  Construction and comparison together: for pins given as three
    texts, the constructed configuration allows a chain exactly when its
    entries 0, 1 and 2 exist and each equals the pin of its position once
    the whitespace is deleted on both sides. *)
Theorem constructed_pins_compare_modulo_whitespace
    (url port : pyval) (server_cert intermediate_cert root_cert : pystr)
    (retrieved_cert_chain : list pystr) :
  exists server_config,
    ServerConfig_init url port (PStr server_cert) (PStr intermediate_cert)
      (PStr root_cert) = Ok server_config /\
    (decide server_config retrieved_cert_chain = Ok Allow <->
     exists c0 c1 c2,
       nth_error retrieved_cert_chain 0 = Some c0 /\
       nth_error retrieved_cert_chain 1 = Some c1 /\
       nth_error retrieved_cert_chain 2 = Some c2 /\
       non_whitespace c0 = non_whitespace server_cert /\
       non_whitespace c1 = non_whitespace intermediate_cert /\
       non_whitespace c2 = non_whitespace root_cert).
Proof.
  eexists. split.
  - unfold ServerConfig_init, rbind. rewrite !post_init_field_str. reflexivity.
  - rewrite decide_allow_iff. unfold matches_at. simpl. split.
    + intros ((c0 & H0 & E0) & (c1 & H1 & E1) & (c2 & H2 & E2)).
      rewrite strip_all_whitespace_filter in E0, E1, E2.
      exists c0, c1, c2. auto 10.
    + intros (c0 & c1 & c2 & H0 & H1 & H2 & E0 & E1 & E2).
      repeat split; eexists; (split; [eassumption|]);
        now rewrite strip_all_whitespace_filter.
Qed.

(** X9.  Constructing again from the fields of a constructed configuration
    gives the same configuration: a constructed [ServerConfig] is a fixed
    point of its [__post_init__]. *)
Theorem ServerConfig_init_again
    (url port server_cert intermediate_cert root_cert : pyval)
    (server_config : ServerConfig) :
  ServerConfig_init url port server_cert intermediate_cert root_cert
    = Ok server_config ->
  ServerConfig_init (URL server_config) (Port server_config)
    (PStr (ServerCert server_config)) (PStr (IntermediateCert server_config))
    (PStr (RootCert server_config))
  = Ok server_config.
Proof.
  unfold ServerConfig_init, rbind. intros H.
  destruct (post_init_field server_cert) as [sc|] eqn:Hs; [|discriminate].
  destruct (post_init_field intermediate_cert) as [ic|] eqn:Hi; [|discriminate].
  destruct (post_init_field root_cert) as [rc|] eqn:Hr; [|discriminate].
  injection H as <-. cbn [URL Port ServerCert IntermediateCert RootCert].
  apply post_init_field_ok in Hs, Hi, Hr.
  destruct Hs as (rs & _ & ->), Hi as (ri & _ & ->), Hr as (rr & _ & ->).
  rewrite !post_init_field_str.
  now rewrite !(non_whitespace_fixed (non_whitespace_clean _)).
Qed.

Lemma ServerConfig_init_again_witness :
  ServerConfig_init (PStr (lit "example.com")) (PInt 443)
    (PStr (lit "AAA")) (PStr (lit "BBB")) (PStr (lit "CCC"))
  = Ok Sample.config.
Proof.
  apply (@ServerConfig_init_again (PStr (lit "example.com")) (PInt 443)
           (PStr (lit " A A A")) (PStr (lit "B B B")) (PStr (lit "CCC "))
           Sample.config).
  reflexivity.
Defined.

(** ** Construction from the secret *)

Lemma field_check_true (items : list (pystr * pyval)) :
  forallb (fun kv => existsb (PyStr.eqb (fst kv)) field_names) items = true <->
  (forall key value, In (key, value) items -> In key field_names).
Proof.
  rewrite forallb_forall. split.
  - intros H key value Hin. specialize (H _ Hin). simpl fst in H.
    apply existsb_exists in H. destruct H as (f & Hf & Heq).
    apply pystr_eqb_eq in Heq. now subst.
  - intros H [key value] Hin. apply existsb_exists. exists key.
    split; [eapply H, Hin | apply pystr_eqb_refl].
Qed.

(** X10.  The construction from the parsed secret succeeds exactly when the
    secret is a dictionary whose keys all name fields, that gives all five
    fields, and whose three certificates are strings; the configuration
    then holds the host and the port as given and the certificates with
    their whitespace deleted.  Nothing else is checked. *)
Theorem ServerConfig_kwargs_ok_iff
    (secrets_dict : pyval) (server_config : ServerConfig) :
  ServerConfig_kwargs secrets_dict = Ok server_config <->
  exists items server_cert intermediate_cert root_cert,
    secrets_dict = PDict items /\
    (forall key value, In (key, value) items -> In key field_names) /\
    dict_lookup (lit "URL") items = Some (URL server_config) /\
    dict_lookup (lit "Port") items = Some (Port server_config) /\
    dict_lookup (lit "ServerCert") items = Some (PStr server_cert) /\
    dict_lookup (lit "IntermediateCert") items = Some (PStr intermediate_cert) /\
    dict_lookup (lit "RootCert") items = Some (PStr root_cert) /\
    ServerCert server_config = non_whitespace server_cert /\
    IntermediateCert server_config = non_whitespace intermediate_cert /\
    RootCert server_config = non_whitespace root_cert.
Proof.
  split.
  - destruct secrets_dict as [| | | | |?|items]; try discriminate.
    unfold ServerConfig_kwargs.
    destruct (forallb _ items) eqn:Hkeys; [|discriminate].
    pose proof (proj1 (field_check_true items) Hkeys) as Hnames.
    destruct (dict_lookup (lit "URL") items) as [u|] eqn:Hu; [|discriminate].
    destruct (dict_lookup (lit "Port") items) as [p|] eqn:Hp; [|discriminate].
    destruct (dict_lookup (lit "ServerCert") items) as [s|] eqn:Hsc;
      [|repeat (destruct (dict_lookup _ items)); discriminate].
    destruct (dict_lookup (lit "IntermediateCert") items) as [i|] eqn:Hic;
      [|repeat (destruct (dict_lookup _ items)); discriminate].
    destruct (dict_lookup (lit "RootCert") items) as [r|] eqn:Hrc; [|discriminate].
    unfold ServerConfig_init, rbind.
    destruct (post_init_field s) as [sc|] eqn:Hs; [|discriminate].
    destruct (post_init_field i) as [ic|] eqn:Hi; [|discriminate].
    destruct (post_init_field r) as [rc|] eqn:Hr; [|discriminate].
    intros H. injection H as <-.
    apply post_init_field_ok in Hs, Hi, Hr.
    destruct Hs as (rs & -> & ->), Hi as (ri & -> & ->), Hr as (rr & -> & ->).
    exists items, rs, ri, rr. simpl. repeat split; assumption.
  - intros (items & s & i & r & -> & Hkeys & Hu & Hp & Hs & Hi & Hr & Es & Ei & Er).
    pose proof (proj2 (field_check_true items) Hkeys) as Hcheck.
    unfold ServerConfig_kwargs.
    rewrite Hcheck, Hu, Hp, Hs, Hi, Hr. unfold ServerConfig_init, rbind.
    rewrite !post_init_field_str, <- Es, <- Ei, <- Er.
    now destruct server_config.
Qed.

Lemma dict_lookup_permutation (items items' : list (pystr * pyval)) (key : pystr) :
  NoDup (map fst items) -> Permutation items items' ->
  dict_lookup key items = dict_lookup key items'.
Proof.
  intros Hnd Hperm. revert Hnd.
  induction Hperm as [|[k v] l l' Hp IH|[k1 v1] [k2 v2] l|l l' l'' Hp1 IH1 Hp2 IH2];
    intros Hnd.
  - reflexivity.
  - simpl. inversion Hnd; subst. now rewrite IH.
  - simpl. destruct (pystr_eqb_spec key k1) as [E1|], (pystr_eqb_spec key k2) as [E2|];
      try reflexivity.
    simpl in Hnd. inversion Hnd as [|? ? Hnot _]; subst. destruct Hnot. now left.
  - rewrite IH1 by assumption. apply IH2.
    eapply Permutation_NoDup; [|exact Hnd]. now apply Permutation_map.
Qed.

Lemma forallb_permutation {A} (f : A -> bool) (l l' : list A) :
  Permutation l l' -> forallb f l = forallb f l'.
Proof.
  induction 1 as [|x l l' _ IH|x y l|l l' l'' _ IH1 _ IH2]; simpl.
  - reflexivity.
  - now rewrite IH.
  - now destruct (f x), (f y).
  - now rewrite IH1.
Qed.

(** X11.  The fields of the secret are matched by name: two dictionaries
    with the same items in a different order construct the same
    configuration, or fail alike. *)
Theorem ServerConfig_kwargs_order_free (items items' : list (pystr * pyval)) :
  NoDup (map fst items) -> Permutation items items' ->
  ServerConfig_kwargs (PDict items) = ServerConfig_kwargs (PDict items').
Proof.
  intros Hnd Hperm. unfold ServerConfig_kwargs.
  rewrite (forallb_permutation _ Hperm).
  now rewrite !(fun key => dict_lookup_permutation key Hnd Hperm).
Qed.

Lemma ServerConfig_kwargs_order_free_witness :
  ServerConfig_kwargs
    (PDict [(lit "RootCert", PStr (lit "CCC")); (lit "URL", PStr (lit "example.com"));
            (lit "ServerCert", PStr (lit "AAA")); (lit "Port", PInt 443);
            (lit "IntermediateCert", PStr (lit "BBB"))])
  = Ok Sample.config.
Proof.
  rewrite (@ServerConfig_kwargs_order_free
             [(lit "RootCert", PStr (lit "CCC")); (lit "URL", PStr (lit "example.com"));
              (lit "ServerCert", PStr (lit "AAA")); (lit "Port", PInt 443);
              (lit "IntermediateCert", PStr (lit "BBB"))]
             [(lit "URL", PStr (lit "example.com")); (lit "Port", PInt 443);
              (lit "ServerCert", PStr (lit "AAA"));
              (lit "IntermediateCert", PStr (lit "BBB"));
              (lit "RootCert", PStr (lit "CCC"))]).
  - reflexivity.
  - repeat (constructor; [simpl; intuition discriminate|]). constructor.
  - apply (Permutation_cons_app [_; _; _; _] []). simpl.
    apply perm_skip. apply perm_swap.
Defined.

(** ** The calls of the retrieval *)

Lemma get_certificate_chain_trace (w : World) (hostname port : pyval) (t : trace) :
  snd (get_certificate_chain w hostname port t)
  = snd (retrieve_chain w hostname port t).
Proof.
  unfold get_certificate_chain, try_except, bind, ret.
  now destruct (retrieve_chain w hostname port t) as [[pems|e] t'].
Qed.

(** The calls the retrieval adds to the trace, by the stage it reaches. *)
Lemma get_certificate_chain_calls (w : World) (hostname port : pyval) (t : trace) :
  exists calls,
    snd (get_certificate_chain w hostname port t) = t ++ calls /\
    match create_default_context w with
    | Raise _ => calls = []
    | Ok _ =>
        match create_connection w hostname port with
        | Raise _ => calls = [Call_create_connection hostname port]
        | Ok sock =>
            match wrap_socket w sock hostname with
            | Raise _ =>
                calls = [Call_create_connection hostname port;
                         Call_wrap_socket sock hostname; Call_close sock]
            | Ok ssock =>
                calls = [Call_create_connection hostname port;
                         Call_wrap_socket sock hostname;
                         Call_close ssock; Call_close sock]
            end
        end
    end.
Proof.
  rewrite get_certificate_chain_trace, retrieve_chain_stages.
  destruct (create_default_context w) as [[]|e0].
  2:{ exists []. now rewrite app_nil_r. }
  destruct (create_connection w hostname port) as [sock|e1].
  2:{ exists [Call_create_connection hostname port]. now split. }
  cbv zeta.
  destruct (wrap_socket w sock hostname) as [ssock|e2].
  - exists [Call_create_connection hostname port; Call_wrap_socket sock hostname;
            Call_close ssock; Call_close sock].
    split; [|reflexivity].
    destruct (close w ssock), (close w sock); simpl;
      now rewrite <- !app_assoc.
  - exists [Call_create_connection hostname port; Call_wrap_socket sock hostname;
            Call_close sock].
    split; [|reflexivity].
    destruct (close w sock); simpl; now rewrite <- !app_assoc.
Qed.

(** A weaker form that does not look at the world: nothing, or one
    connection call followed by handshake and close calls. *)
Lemma get_certificate_chain_calls_shape
    (w : World) (hostname port : pyval) (t : trace) :
  exists calls,
    snd (get_certificate_chain w hostname port t) = t ++ calls /\
    (calls = [] \/
     exists rest,
       calls = Call_create_connection hostname port :: rest /\
       Forall (follows_connection hostname) rest).
Proof.
  destruct (get_certificate_chain_calls w hostname port t) as (calls & Ht & Hc).
  exists calls. split; [exact Ht|].
  destruct (create_default_context w); [|now left].
  destruct (create_connection w hostname port) as [sock|];
    [|right; subst; eexists; split; [reflexivity | constructor]].
  destruct (wrap_socket w sock hostname); subst; right; eexists;
    (split; [reflexivity | repeat constructor]).
Qed.

(** X12.  The retrieval is one attempt: it opens at most one connection,
    to the host and port it was given; the handshake names that same
    host; and each socket it obtained is closed before it returns, the TLS
    socket first, also when a later stage failed. *)
Theorem get_certificate_chain_one_attempt_sockets_closed
    (w : World) (hostname port : pyval) (t : trace) :
  exists calls,
    snd (get_certificate_chain w hostname port t) = t ++ calls /\
    length (filter is_connection_call calls) <= 1 /\
    (forall h p, In (Call_create_connection h p) calls -> h = hostname /\ p = port) /\
    (forall sock server_hostname,
       In (Call_wrap_socket sock server_hostname) calls ->
       server_hostname = hostname /\ create_connection w hostname port = Ok sock) /\
    (forall sock,
       create_default_context w = Ok tt ->
       create_connection w hostname port = Ok sock ->
       In (Call_close sock) calls /\
       forall ssock,
         wrap_socket w sock hostname = Ok ssock ->
         exists before, calls = before ++ [Call_close ssock; Call_close sock]).
Proof.
  destruct (get_certificate_chain_calls w hostname port t) as (calls & Ht & Hc).
  exists calls. split; [exact Ht|].
  destruct (create_default_context w) as [[]|e0].
  2:{ subst calls. repeat split; simpl; try lia; try contradiction; discriminate. }
  destruct (create_connection w hostname port) as [sock|e1].
  2:{ subst calls. simpl. split; [lia|]. split; [|split].
      - intros h p [H|[]]. injection H as <- <-. now split.
      - intros s sn [H|[]]. discriminate.
      - discriminate. }
  destruct (wrap_socket w sock hostname) as [ssock|e2] eqn:Hw; subst calls; simpl.
  - split; [lia|]. split; [|split].
    + intros h p [H|[H|[H|[H|[]]]]]; try discriminate.
      injection H as <- <-. now split.
    + intros s sn [H|[H|[H|[H|[]]]]]; try discriminate.
      injection H as <- <-. now split.
    + intros s _ Hs. injection Hs as <-. split; [auto 6|].
      intros ss Hss. rewrite Hw in Hss. injection Hss as <-.
      now exists [Call_create_connection hostname port;
                  Call_wrap_socket sock hostname].
  - split; [lia|]. split; [|split].
    + intros h p [H|[H|[H|[]]]]; try discriminate.
      injection H as <- <-. now split.
    + intros s sn [H|[H|[H|[]]]]; try discriminate.
      injection H as <- <-. now split.
    + intros s _ Hs. injection Hs as <-. split; [auto 6|].
      intros ss Hss. congruence.
Qed.

(** X13.  The retrieval never returns a part of the chain: its result is
    either empty or the conversion of every certificate of the verified
    chain, in order, after a connection and a handshake that succeeded. *)
Theorem get_certificate_chain_all_or_nothing
    (w : World) (hostname port : pyval) (t : trace) :
  exists chain t',
    get_certificate_chain w hostname port t = (Ok chain, t') /\
    (chain = [] \/
     exists sock ssock cert_chain,
       create_connection w hostname port = Ok sock /\
       wrap_socket w sock hostname = Ok ssock /\
       get_verified_chain w ssock = Ok cert_chain /\
       Forall2 (fun cert pem => DER_cert_to_PEM_cert w cert = Ok pem)
         cert_chain chain).
Proof.
  destruct (retrieve_chain w hostname port t) as [[pems|e] t'] eqn:Hr.
  2:{ exists [], t'. split; [|now left].
      exact (get_certificate_chain_caught _ _ _ _ Hr). }
  exists pems, t'. split; [exact (get_certificate_chain_returned _ _ _ _ Hr)|].
  right. rewrite retrieve_chain_stages in Hr.
  destruct (create_default_context w) as [[]|]; [|discriminate].
  destruct (create_connection w hostname port) as [sock|] eqn:Hsock; [|discriminate].
  cbv zeta in Hr.
  destruct (wrap_socket w sock hostname) as [ssock|] eqn:Hssock.
  2:{ destruct (close w sock); discriminate. }
  destruct (get_verified_chain w ssock) as [cert_chain|] eqn:Hchain.
  2:{ destruct (close w ssock), (close w sock); discriminate. }
  exists sock, ssock, cert_chain. do 3 (split; [assumption || reflexivity|]).
  apply comprehension_ok.
  destruct (close w ssock), (close w sock); simpl in Hr; congruence.
Qed.

(** ** The handler on every event *)

Lemma getitem_raises (obj : pyval) (key : pystr) (e : py_exception) :
  getitem obj key = Raise e -> e = KeyError \/ e = TypeError.
Proof.
  unfold getitem. destruct obj; try (intros H; injection H as <-; now right).
  destruct (dict_lookup key items); [discriminate|].
  intros H; injection H as <-; now left.
Qed.

Lemma source_ip_of_raises (event : pyval) (e : py_exception) :
  source_ip_of event = Raise e -> e = KeyError \/ e = TypeError.
Proof.
  unfold source_ip_of, rbind.
  destruct (getitem event (lit "requestContext")) as [rc|e1] eqn:H1.
  - destruct (getitem rc (lit "identity")) as [idn|e2] eqn:H2.
    + apply getitem_raises.
    + intros H; injection H as <-. eapply getitem_raises, H2.
  - intros H; injection H as <-. eapply getitem_raises, H1.
Qed.

(** When the address of the caller cannot be read, the handler stops at
    its first statement. *)
Lemma lambda_handler_unreadable
    (w : World) (event : pyval) (t : trace) (e : py_exception) :
  source_ip_of event = Raise e -> lambda_handler w event t = (Raise e, t).
Proof.
  unfold source_ip_of, rbind, lambda_handler, bind, lift.
  destruct (getitem event (lit "requestContext")) as [rc|e1];
    [|intros H; now injection H as <-].
  destruct (getitem rc (lit "identity")) as [idn|e2];
    [|intros H; now injection H as <-].
  now intros ->.
Qed.

(** When it can, the handler is the cascade of its four returns, each of
    which reads [methodArn] as it builds the policy. *)
Lemma lambda_handler_cascade
    (w : World) (event source_ip : pyval) (t : trace) :
  source_ip_of event = Ok source_ip ->
  let build principal_id decision :=
    match getitem event (lit "methodArn") with
    | Ok method_arn =>
        Ok (generate_policy principal_id (effect_of decision) method_arn)
    | Raise e => Raise e
    end in
  lambda_handler w event t =
  match os_getenv w (lit "secret_name") with
  | None | Some [] => (build source_ip Deny, t)
  | Some ((_ :: _) as name) =>
      match load_server_config w name t with
      | (Raise _, t1) => (build (PStr (lit "user")) Deny, t1)
      | (Ok server_config, t1) =>
          match get_certificate_chain w (URL server_config) (Port server_config) t1 with
          | (Ok chain, t2) =>
              match decide server_config chain with
              | Ok d => (build source_ip d, t2)
              | Raise e => (Raise e, t2)
              end
          | (Raise e, t2) => (Raise e, t2)
          end
      end
  end.
Proof.
  unfold source_ip_of, rbind. intros Hip. cbv zeta.
  unfold lambda_handler, bind, lift, try_except, ret.
  destruct (getitem event (lit "requestContext")) as [rc|]; [|discriminate].
  destruct (getitem rc (lit "identity")) as [idn|]; [|discriminate].
  rewrite Hip.
  destruct (os_getenv w (lit "secret_name")) as [[|c name]|];
    try (destruct (getitem event (lit "methodArn")); reflexivity).
  destruct (load_server_config w (c :: name) t) as [[cfg|e] t1];
    [|destruct (getitem event (lit "methodArn")); reflexivity].
  destruct (get_certificate_chain w (URL cfg) (Port cfg) t1) as [[chain|e] t2];
    [|reflexivity].
  destruct (decide cfg chain); [|reflexivity].
  destruct (getitem event (lit "methodArn")); reflexivity.
Qed.

Lemma gateway_event_source_ip (event source_ip method_arn : pyval) :
  gateway_event event source_ip method_arn <->
  source_ip_of event = Ok source_ip /\
  getitem event (lit "methodArn") = Ok method_arn.
Proof.
  unfold gateway_event, source_ip_of, rbind. split.
  - intros (rc & idn & -> & -> & -> & ->). now split.
  - intros [Hip Harn].
    destruct (getitem event (lit "requestContext")) as [rc|]; [|discriminate].
    destruct (getitem rc (lit "identity")) as [idn|] eqn:Hidn; [|discriminate].
    exists rc, idn. auto.
Qed.

(** The handler returns or raises according to the two subscripts of the
    event alone. *)
Lemma lambda_handler_outcome (w : World) (event : pyval) (t : trace) :
  match source_ip_of event, getitem event (lit "methodArn") with
  | Raise e, _ => lambda_handler w event t = (Raise e, t)
  | Ok _, Raise e => fst (lambda_handler w event t) = Raise e
  | Ok _, Ok method_arn =>
      exists principal_id decision,
        fst (lambda_handler w event t)
        = Ok (generate_policy principal_id (effect_of decision) method_arn)
  end.
Proof.
  destruct (source_ip_of event) as [ip|e] eqn:Hip;
    [|now apply lambda_handler_unreadable].
  rewrite (@lambda_handler_cascade w event ip t Hip). cbv zeta.
  destruct (getitem event (lit "methodArn")) as [arn|e];
    destruct (os_getenv w (lit "secret_name")) as [[|c name]|];
    cbn [fst]; eauto;
    destruct (load_server_config w (c :: name) t) as [[cfg|e'] t1];
    cbn [fst]; eauto;
    destruct (get_certificate_chain_total w (URL cfg) (Port cfg) t1)
      as (chain & t2 & ->);
    destruct (decide_total cfg chain) as [d ->]; cbn [fst]; eauto.
Qed.

(** X14.  When the event does not give the address of the caller (it is
    not a dictionary, or [requestContext], [identity] or [sourceIp] is
    missing), the handler raises the [KeyError] or [TypeError] of the failed
    subscript at once: the trace is unchanged, so neither Secrets Manager
    nor the host was called. *)
Theorem lambda_handler_stops_before_any_call
    (w : World) (event : pyval) (t : trace) (e : py_exception) :
  source_ip_of event = Raise e ->
  lambda_handler w event t = (Raise e, t) /\ (e = KeyError \/ e = TypeError).
Proof.
  intros H. split.
  - now apply lambda_handler_unreadable.
  - eapply source_ip_of_raises, H.
Qed.

Lemma lambda_handler_stops_before_any_call_witness :
  lambda_handler (Sample.world Sample.pinned) (PList [PStr (lit "requestContext")]) []
  = (Raise TypeError, []) /\
  lambda_handler (Sample.world Sample.pinned)
    (PDict [(lit "methodArn", Sample.method_arn);
            (lit "requestContext", PDict [(lit "identity", PDict [])])]) []
  = (Raise KeyError, []).
Proof.
  split.
  - apply (@lambda_handler_stops_before_any_call (Sample.world Sample.pinned)
             (PList [PStr (lit "requestContext")]) [] TypeError).
    reflexivity.
  - apply (@lambda_handler_stops_before_any_call (Sample.world Sample.pinned)
             (PDict [(lit "methodArn", Sample.method_arn);
                     (lit "requestContext", PDict [(lit "identity", PDict [])])])
             [] KeyError).
    reflexivity.
Defined.

(** X15.  The handler returns a policy exactly when the event carries both
    [requestContext.identity.sourceIp] and [methodArn]; on every other
    event it raises, and what it raises is the [KeyError] or [TypeError] of
    a subscript of the event, whatever the world does. *)
Theorem lambda_handler_returns_iff (w : World) (event : pyval) (t : trace) :
  ((exists policy t', lambda_handler w event t = (Ok policy, t')) <->
   (exists source_ip method_arn, gateway_event event source_ip method_arn)) /\
  (forall e t',
     lambda_handler w event t = (Raise e, t') -> e = KeyError \/ e = TypeError).
Proof.
  pose proof (lambda_handler_outcome w event t) as Hout.
  destruct (source_ip_of event) as [ip|e0] eqn:Hip.
  - destruct (getitem event (lit "methodArn")) as [arn|e1] eqn:Harn.
    + destruct Hout as (p & d & Hout). split.
      * split.
        -- intros _. exists ip, arn. apply gateway_event_source_ip. now split.
        -- intros _. destruct (lambda_handler w event t) as [r t'].
           simpl in Hout. subst r. eauto.
      * intros e t' H. rewrite H in Hout. discriminate.
    + split.
      * split.
        -- intros (policy & t' & H). rewrite H in Hout. discriminate.
        -- intros (ip' & arn' & Hg). apply gateway_event_source_ip in Hg.
           destruct Hg as [_ Hg]. congruence.
      * intros e t' H. rewrite H in Hout. simpl in Hout.
        injection Hout as ->. eapply getitem_raises, Harn.
  - split.
    + split.
      * intros (policy & t' & H). rewrite H in Hout. discriminate.
      * intros (ip' & arn' & Hg). apply gateway_event_source_ip in Hg.
        destruct Hg as [Hg _]. congruence.
    + intros e t' H. rewrite H in Hout. injection Hout as -> _.
      eapply source_ip_of_raises, Hip.
Qed.

Lemma follows_connection_only (hostname : pyval) (rest : list io_call) :
  Forall (follows_connection hostname) rest ->
  filter is_connection_call rest = [] /\
  (forall h p, ~ In (Call_create_connection h p) rest) /\
  (forall secret_id, ~ In (Call_get_secret_value secret_id) rest).
Proof.
  induction 1 as [|c rest Hc _ (IHf & IHc & IHs)].
  - repeat split; intros; intros [].
  - destruct c; simpl in Hc; try contradiction; simpl;
      (split; [exact IHf|]); split; intros; intros [Heq|Hin];
      try discriminate; solve [eapply IHc; eauto | eapply IHs; eauto].
Qed.

(** X16.  Whatever the event and the world, the handler calls Secrets
    Manager only for the secret that the environment names, and it opens a
    connection at most once and only to the host and port of a
    configuration it has loaded; without a secret name it makes no outside
    call at all. *)
Theorem lambda_handler_calls (w : World) (event : pyval) (t : trace) :
  exists calls,
    snd (lambda_handler w event t) = t ++ calls /\
    (os_getenv w (lit "secret_name") = None \/
     os_getenv w (lit "secret_name") = Some [] -> calls = []) /\
    (forall secret_id,
       In (Call_get_secret_value secret_id) calls ->
       os_getenv w (lit "secret_name") = Some secret_id /\ secret_id <> []) /\
    (forall hostname port,
       In (Call_create_connection hostname port) calls ->
       exists name server_config t1,
         os_getenv w (lit "secret_name") = Some name /\
         load_server_config w name t = (Ok server_config, t1) /\
         hostname = URL server_config /\ port = Port server_config) /\
    length (filter is_connection_call calls) <= 1.
Proof.
  destruct (source_ip_of event) as [ip|e0] eqn:Hip.
  2:{ exists []. rewrite (@lambda_handler_unreadable w event t e0 Hip), app_nil_r.
      repeat split; simpl; try lia; intros; contradiction. }
  rewrite (@lambda_handler_cascade w event ip t Hip). cbv zeta.
  destruct (os_getenv w (lit "secret_name")) as [[|c name]|] eqn:Henv;
    try (exists []; rewrite app_nil_r;
         repeat split; simpl; try lia; intros; contradiction).
  pose proof (load_server_config_trace w (c :: name) t) as Ht1.
  destruct (load_server_config w (c :: name) t) as [[cfg|e] t1] eqn:Hload;
    simpl in Ht1; subst t1.
  2:{ exists [Call_get_secret_value (c :: name)]. split; [reflexivity|].
      split; [intros [H|H]; discriminate|]. split; [|split].
      - intros id [H|[]]. injection H as <-. split; [reflexivity|discriminate].
      - intros h p [H|[]]. discriminate.
      - simpl. lia. }
  destruct (get_certificate_chain_calls_shape w (URL cfg) (Port cfg)
              (t ++ [Call_get_secret_value (c :: name)]))
    as (rcalls & Hr & Hshape).
  exists (Call_get_secret_value (c :: name) :: rcalls).
  split.
  { replace (t ++ Call_get_secret_value (c :: name) :: rcalls)
      with ((t ++ [Call_get_secret_value (c :: name)]) ++ rcalls)
      by now rewrite <- app_assoc.
    rewrite <- Hr.
    destruct (get_certificate_chain w (URL cfg) (Port cfg)
                (t ++ [Call_get_secret_value (c :: name)])) as [[chain|e] t2];
      [|reflexivity].
    now destruct (decide cfg chain). }
  split; [intros [H|H]; discriminate|].
  destruct Hshape as [->|(rest & -> & Hrest)].
  - split; [|split].
    + intros id [H|[]]. injection H as <-. split; [reflexivity|discriminate].
    + intros h p [H|[]]. discriminate.
    + simpl. lia.
  - apply follows_connection_only in Hrest. destruct Hrest as (Hf & Hc & Hs).
    split; [|split].
    + intros id [H|[H|H]]; [|discriminate|now apply Hs in H].
      injection H as <-. split; [reflexivity|discriminate].
    + intros h p [H|[H|H]]; [discriminate| |now apply Hc in H].
      injection H as <- <-. exists (c :: name), cfg, (t ++ [Call_get_secret_value (c :: name)]).
      auto.
    + simpl. rewrite Hf. simpl. lia.
Qed.

(** ** The policy *)

Lemma policy_effect_inj
    (principal_id principal_id' resource resource' : pyval) (d d' : Decision) :
  generate_policy principal_id (effect_of d) resource
  = generate_policy principal_id' (effect_of d') resource' ->
  d = d'.
Proof.
  unfold generate_policy. intros H. injection H as _ H.
  destruct d, d'; try reflexivity; discriminate.
Qed.

Lemma returned_effect_inj
    (principal_id principal_id' resource resource' : pyval) (d d' : Decision)
    (t t' : trace) :
  (Ok (generate_policy principal_id (effect_of d) resource), t)
  = (Ok (generate_policy principal_id' (effect_of d') resource'), t') ->
  d = d'.
Proof.
  intros H. apply (@policy_effect_inj principal_id principal_id' resource resource').
  congruence.
Qed.

(** X17.  End to end, on an event of API Gateway: the handler returns an
    Allow policy exactly when a secret name is set, the configuration
    loads, and the chain retrieved from its host has entries 0, 1 and 2
    whose normalizations equal the three pinned certificates.  In every
    other case the effect is not Allow. *)
Theorem lambda_handler_allows_iff
    (w : World) (event source_ip method_arn : pyval) (t : trace) :
  gateway_event event source_ip method_arn ->
  ((exists principal_id t',
      lambda_handler w event t
      = (Ok (generate_policy principal_id (effect_of Allow) method_arn), t')) <->
   (exists name server_config t1 chain t2,
      os_getenv w (lit "secret_name") = Some name /\ name <> [] /\
      load_server_config w name t = (Ok server_config, t1) /\
      get_certificate_chain w (URL server_config) (Port server_config) t1
      = (Ok chain, t2) /\
      matches_at (ServerCert server_config) chain 0 /\
      matches_at (IntermediateCert server_config) chain 1 /\
      matches_at (RootCert server_config) chain 2)).
Proof.
  intros Hev. rewrite (lambda_handler_gateway w t Hev). split.
  - intros (p & t' & H).
    destruct (os_getenv w (lit "secret_name")) as [[|c name]|] eqn:Henv;
      try (apply returned_effect_inj in H; discriminate).
    destruct (load_server_config w (c :: name) t) as [[cfg|e] t1] eqn:Hload;
      [|apply returned_effect_inj in H; discriminate].
    destruct (get_certificate_chain w (URL cfg) (Port cfg) t1)
      as [[chain|e] t2] eqn:Hchain; [|discriminate].
    destruct (decide cfg chain) as [d|] eqn:Hd; [|discriminate].
    apply returned_effect_inj in H. subst d.
    apply decide_allow_iff in Hd.
    exists (c :: name), cfg, t1, chain, t2.
    split; [reflexivity|]. split; [discriminate|].
    split; [exact Hload|]. split; [exact Hchain | exact Hd].
  - intros (name & cfg & t1 & chain & t2 & -> & Hne & -> & -> & H0 & H1 & H2).
    destruct name as [|c name]; [congruence|].
    assert (Hd : decide cfg chain = Ok Allow) by (apply decide_allow_iff; tauto).
    rewrite Hd. eauto.
Qed.

Lemma lambda_handler_allows_iff_witness :
  exists principal_id t',
    lambda_handler (Sample.world Sample.pinned) Sample.event []
    = (Ok (generate_policy principal_id (effect_of Allow) Sample.method_arn), t').
Proof.
  apply (@lambda_handler_allows_iff (Sample.world Sample.pinned) Sample.event
           Sample.source_ip Sample.method_arn [] sample_event_is_gateway_event).
  exists (lit "pins"), Sample.config, [Call_get_secret_value (lit "pins")].
  do 2 eexists.
  split; [reflexivity|]. split; [discriminate|]. split; [reflexivity|].
  split; [reflexivity|].
  repeat split; eexists; split; reflexivity.
Defined.

(** X18.  A policy document gives back what it was built from: its
    [principalId] is the principal, its only statement carries the action
    [execute-api:Invoke], the effect and the resource; so two documents are
    equal only when built from the same three values, and an Allow
    document is never a Deny document. *)
Theorem generate_policy_reads_back (principal_id effect resource : pyval) :
  getitem (generate_policy principal_id effect resource) (lit "principalId")
  = Ok principal_id /\
  (exists statement,
     (document <~ getitem (generate_policy principal_id effect resource)
                    (lit "policyDocument") ;;
      getitem document (lit "Statement"))%result = Ok (PList [statement]) /\
     getitem statement (lit "Action") = Ok (PStr (lit "execute-api:Invoke")) /\
     getitem statement (lit "Effect") = Ok effect /\
     getitem statement (lit "Resource") = Ok resource) /\
  (forall principal_id' effect' resource',
     generate_policy principal_id effect resource
     = generate_policy principal_id' effect' resource' ->
     principal_id = principal_id' /\ effect = effect' /\ resource = resource') /\
  effect_of Allow <> effect_of Deny.
Proof.
  split; [reflexivity|]. split; [|split].
  - eexists. repeat split.
  - unfold generate_policy. intros p' e' r' H. injection H as -> -> ->. auto.
  - discriminate.
Qed.
